(** * Dart Cricket scoreboard: the game screen and its record store

    A shallow embedding of [app/game-screen.js] (the screen served by the
    router): the scoring grid, the move history, the tap / undo / reset
    handlers, the win check and the persistence of game records in
    AsyncStorage under the keys "inProgressGames" and "completedGames".

    Conventions of the embedding.
    - A JavaScript exception is a [Throw]; a handler that throws inside a
      React state updater takes the screen down, so a thrown handler has no
      successor session.
    - An array element that is [undefined] (an index past the end, or a hole
      left by a write past the end) is [None]; reading a property of it is a
      [TypeError].
    - [JSON.stringify] / [JSON.parse] of stored collections are the identity
      on typed records; a route parameter is given by the outcome of parsing
      it.
    - [new Date()] is an argument of every function that reads the clock.
    - The [await]s of one handler run to completion before the next event. *)

From stdpp Require Import base numbers option list strings gmap.

(** ** JavaScript exceptions *)

Inductive exn : Set := TypeError | SyntaxError | StorageError.

Inductive result (A : Type) : Type :=
| Ok (a : A)
| Throw (e : exn).
Arguments Ok {A} a.
Arguments Throw {A} e.

#[global] Instance result_ret : MRet result := λ A a, Ok a.
#[global] Instance result_bind : MBind result := λ A B f m,
  match m with
  | Ok a => f a
  | Throw e => Throw e
  end.

(** ** Data model *)

Record Cell : Set := { taps : Z }.

#[global] Instance Cell_eq_dec : EqDecision Cell.
Proof. solve_decision. Defined.

Abbreviation Row := (list (option Cell)).
Abbreviation Grid := (list Row).

Record Move : Set := { rowIndex : nat; colIndex : nat; previousTaps : Z }.

(** The objects stored in the two collections.  [history] is absent from a
    completed record; [time] and [winner] are absent from an in-progress
    one. *)
Module GameRecord.
Record t : Type := mk {
  gameName : string;
  players : list string;
  grid : Grid;
  history : option (list Move);
  date : string;
  time : option string;
  winner : option string;
}.
End GameRecord.

(** [new Date()] as read by [toLocaleDateString] and [toLocaleTimeString]. *)
Record Clock : Set := {
  toLocaleDateString : string;
  toLocaleTimeString : string;
}.

(** Parameters of the push to '/winner-popup'. *)
Record WinnerPopup : Set := { playerName : option string; popupDate : string }.

(** The component state: the route parameters [gameName] and [players] and
    the [useState] cells. *)
Record Session : Type := {
  gameName : string;
  players : list string;
  grid : Grid;
  history : list Move;
  originalGrid : Grid;
  originalHistory : list Move;
  changesMade : bool;
  isWinnerDeclared : bool;
  hasSaved : bool;
}.

(** What lies outside the component: the key-value store, whether its calls
    are resolved or rejected, and the routes pushed so far. *)
Record World : Type := {
  items : gmap string (list GameRecord.t);
  available : bool;
  pushed : list WinnerPopup;
}.

(** ** Asynchronous code over the world *)

Definition Async (A : Type) : Type := World → result A * World.

#[global] Instance Async_ret : MRet Async := λ A a w, (Ok a, w).

#[global] Instance Async_bind : MBind Async := λ A B k m w,
  match m w with
  | (Ok a, w') => k a w'
  | (Throw e, w') => (Throw e, w')
  end.

(** [try { body } catch (error) { handler }] *)
Definition try_catch {A} (body : Async A) (handler : exn → Async A) : Async A := λ w,
  match body w with
  | (Ok a, w') => (Ok a, w')
  | (Throw e, w') => handler e w'
  end.

(** A synchronous computation inside asynchronous code. *)
Definition lift {A} (r : result A) : Async A := λ w, (r, w).

Definition getItem (key : string) : Async (option (list GameRecord.t)) := λ w,
  if available w then (Ok (items w !! key), w) else (Throw StorageError, w).

(** The world once [value] is stored under [key]. *)
Definition put (key : string) (value : list GameRecord.t) (w : World) : World :=
  {| items := <[key := value]> (items w);
     available := available w; pushed := pushed w |}.

Definition setItem (key : string) (value : list GameRecord.t) : Async unit := λ w,
  if available w then (Ok (), put key value w) else (Throw StorageError, w).

(** The world once the route [p] is pushed. *)
Definition push (p : WinnerPopup) (w : World) : World :=
  {| items := items w; available := available w; pushed := pushed w ++ [p] |}.

Definition router_push (p : WinnerPopup) : Async unit := λ w, (Ok (), push p w).

(** The collections as the code reads them: [existingGames ?
    JSON.parse(existingGames) : []]. *)
Definition collection (key : string) (w : World) : list GameRecord.t :=
  default [] (items w !! key).

Definition inProgressGames (w : World) : list GameRecord.t :=
  collection "inProgressGames" w.
Definition completedGames (w : World) : list GameRecord.t :=
  collection "completedGames" w.

(** ** The grid *)

Definition rows : list string :=
  ["20"; "19"; "18"; "17"; "16"; "15"; "Bull"]%string.

(** [rows.map(() => Array(players.length).fill({ taps: 0 }))] *)
Definition initialGridState (players : list string) : Grid :=
  (λ _, replicate (length players) (Some {| taps := 0 |})) <$> rows.

(** [grid[rowIndex][colIndex]] as the object of a property access. *)
Definition cellAt (g : Grid) (rowIndex colIndex : nat) : result Cell :=
  match g !! rowIndex with
  | None => Throw TypeError
  | Some row =>
      match row !! colIndex with
      | Some (Some cell) => Ok cell
      | _ => Throw TypeError
      end
  end.

(** [row[colIndex] = cell]: a write past the end extends the array and
    leaves holes. *)
Definition storeAt (row : Row) (colIndex : nat) (cell : Cell) : Row :=
  if decide (colIndex < length row)
  then <[colIndex := Some cell]> row
  else row ++ replicate (colIndex - length row) None ++ [Some cell].

(** [newGrid[rowIndex][colIndex] = cell] on the copy [[...prevGrid]]. *)
Definition setCell (g : Grid) (rowIndex colIndex : nat) (cell : Cell) : result Grid :=
  match g !! rowIndex with
  | None => Throw TypeError
  | Some row => Ok (<[rowIndex := storeAt row colIndex cell]> g)
  end.

(** [grid.map(row => row[colIndex])] *)
Definition column (g : Grid) (colIndex : nat) : list (option Cell) :=
  (λ row : Row, mjoin (row !! colIndex)) <$> g.

(** [column.every(cell => cell.taps === 3)] *)
Fixpoint every_taps_3 (column : list (option Cell)) : result bool :=
  match column with
  | [] => Ok true
  | None :: _ => Throw TypeError
  | Some cell :: rest =>
      if decide (taps cell = 3%Z) then every_taps_3 rest else Ok false
  end.

(** ** Session construction *)

(** A serialized route parameter, by what [param ? JSON.parse(param) : dflt]
    makes of it: absent (undefined or empty, hence falsy), present and
    rejected by [JSON.parse], or present and parsed to [v]. *)
Inductive param (A : Type) : Type :=
| Absent
| Unparsable (raw : string)
| Parsed (v : A).
Arguments Absent {A}.
Arguments Unparsable {A} raw.
Arguments Parsed {A} v.

Definition parse_or {A} (p : param A) (dflt : A) : result A :=
  match p with
  | Absent => Ok dflt
  | Unparsable _ => Throw SyntaxError
  | Parsed v => Ok v
  end.

Record SearchParams : Type := {
  gameNameParam : option string;
  playersParam : param (list string);
  gridParam : param Grid;
  historyParam : param (list Move);
}.

Definition defaultPlayers : list string := ["Player 1"; "Player 2"]%string.

(** The body of [GameScreenPage] up to the [useState] calls of the first
    render. *)
Definition GameScreenPage (params : SearchParams) : result Session :=
  let gameName := default "Game"%string (gameNameParam params) in
  players ← parse_or (playersParam params) defaultPlayers;
  let initialGridState := initialGridState players in
  grid ← parse_or (gridParam params) initialGridState;
  history ← parse_or (historyParam params) [];
  Ok {| gameName := gameName; players := players;
        grid := grid; history := history;
        originalGrid := grid; originalHistory := history;
        changesMade := false; isWinnerDeclared := false; hasSaved := false |}.

(** ** The record store *)

(** The object literal [gameData] of [saveGame]. *)
Definition gameData (now : Clock) (s : Session) : GameRecord.t :=
  {| GameRecord.gameName := gameName s;
     GameRecord.players := players s;
     GameRecord.grid := grid s;
     GameRecord.history := Some (history s);
     GameRecord.date := toLocaleDateString now;
     GameRecord.time := None;
     GameRecord.winner := None |}.

Definition saveGame (now : Clock) (s : Session) : Async Session :=
  let gameData := gameData now s in
  try_catch
    (existingGames ← getItem "inProgressGames";
     let games := default [] existingGames in
     let updatedGames :=
       filter (λ game, GameRecord.gameName game ≠ gameName s) games
       ++ [gameData] in
     setItem "inProgressGames" updatedGames;;
     mret {| gameName := gameName s; players := players s;
             grid := grid s; history := history s;
             originalGrid := grid s; originalHistory := originalHistory s;
             changesMade := false; isWinnerDeclared := isWinnerDeclared s;
             hasSaved := true |})
    (λ error, mret s).

(** The object literal [resetGameHistory] of [saveResetGame]. *)
Definition resetGameHistory (now : Clock) (s : Session) : GameRecord.t :=
  {| GameRecord.gameName := gameName s;
     GameRecord.players := players s;
     GameRecord.grid := initialGridState (players s);
     GameRecord.history := Some [];
     GameRecord.date := toLocaleDateString now;
     GameRecord.time := None;
     GameRecord.winner := None |}.

Definition saveResetGame (now : Clock) (s : Session) : Async Session :=
  let resetGameHistory := resetGameHistory now s in
  try_catch
    (existingGames ← getItem "inProgressGames";
     let games := default [] existingGames in
     let updatedGames :=
       filter (λ game, GameRecord.gameName game ≠ gameName s) games
       ++ [resetGameHistory] in
     setItem "inProgressGames" updatedGames;;
     mret {| gameName := gameName s; players := players s;
             grid := grid s; history := history s;
             originalGrid := initialGridState (players s);
             originalHistory := [];
             changesMade := false; isWinnerDeclared := isWinnerDeclared s;
             hasSaved := hasSaved s |})
    (λ error, mret s).

Definition removeFromInProgress (s : Session) : Async unit :=
  try_catch
    (existingGames ← getItem "inProgressGames";
     let inProgressGames := default [] existingGames in
     let updatedGames :=
       filter (λ game, GameRecord.gameName game ≠ gameName s) inProgressGames in
     setItem "inProgressGames" updatedGames)
    (λ error, mret ()).

(** The object literal [completedGame] of [saveCompletedGame]; a winner
    name that is [undefined] leaves the key out of the stored object. *)
Definition completedGame (now : Clock) (s : Session) (winnerName : option string)
    : GameRecord.t :=
  {| GameRecord.gameName := gameName s;
     GameRecord.players := players s;
     GameRecord.grid := grid s;
     GameRecord.history := None;
     GameRecord.date := toLocaleDateString now;
     GameRecord.time := Some (toLocaleTimeString now);
     GameRecord.winner := winnerName |}.

Definition saveCompletedGame (now : Clock) (s : Session) (winnerName : option string)
    : Async unit :=
  let completedGame := completedGame now s winnerName in
  try_catch
    (existingGames ← getItem "completedGames";
     let completedGames := default [] existingGames in
     setItem "completedGames" (completedGames ++ [completedGame]);;
     removeFromInProgress s)
    (λ error, mret ()).

(** ** The handlers *)

(** [checkForWinner(grid, colIndex)], the argument [grid] being [g].  The
    session [s] is the one whose
    setters it calls; [saveCompletedGame] reads the grid of the closure,
    whose row arrays are the ones the tap has just written to, so the stored
    grid is the grid after the tap.  The push to the winner popup is the one
    the 100 ms timer makes. *)
Definition checkForWinner (now : Clock) (s : Session) (g : Grid) (colIndex : nat)
    : Async Session :=
  isWinner ← lift (every_taps_3 (column g colIndex));
  if isWinner : bool then
    let winnerName := players s !! colIndex in
    saveCompletedGame now s winnerName;;
    router_push {| playerName := winnerName;
                   popupDate := toLocaleDateString now |};;
    mret {| gameName := gameName s; players := players s;
            grid := grid s; history := history s;
            originalGrid := originalGrid s;
            originalHistory := originalHistory s;
            changesMade := changesMade s; isWinnerDeclared := true;
            hasSaved := hasSaved s |}
  else mret s.

Definition handleCellPress (now : Clock) (rowIndex colIndex : nat) (s : Session)
    : Async Session :=
  if isWinnerDeclared s then mret s else
  cell ← lift (cellAt (grid s) rowIndex colIndex);
  let previousTaps := taps cell in
  let newTaps := Z.min (previousTaps + 1) 3 in
  newGrid ← lift (setCell (grid s) rowIndex colIndex {| taps := newTaps |});
  let s' :=
    {| gameName := gameName s; players := players s;
       grid := newGrid;
       history := history s ++ [{| rowIndex := rowIndex; colIndex := colIndex;
                                   previousTaps := previousTaps |}];
       originalGrid := originalGrid s; originalHistory := originalHistory s;
       changesMade := true; isWinnerDeclared := isWinnerDeclared s;
       hasSaved := hasSaved s |} in
  checkForWinner now s' newGrid colIndex.

(** [history.pop()] takes the last move off the array the state holds;
    [saveGame] then reads that array and the grid rows the updater has
    written to. *)
Definition handleUndo (now : Clock) (s : Session) : Async Session :=
  if decide (length (history s) = 0) then mret s
  else if isWinnerDeclared s then mret s
  else
    match last (history s) with
    | None => mret s
    | Some lastMove =>
        updatedGrid ← lift (setCell (grid s) (rowIndex lastMove) (colIndex lastMove)
                              {| taps := previousTaps lastMove |});
        saveGame now
          {| gameName := gameName s; players := players s;
             grid := updatedGrid; history := removelast (history s);
             originalGrid := originalGrid s;
             originalHistory := originalHistory s;
             changesMade := true; isWinnerDeclared := isWinnerDeclared s;
             hasSaved := hasSaved s |}
    end.

(** [handleResetBoard]; [confirmed] is the button pressed in the alert
    ('Yes' or 'Cancel'). *)
Definition handleResetBoard (now : Clock) (confirmed : bool) (s : Session)
    : Async Session :=
  if confirmed then
    let initialGridState := initialGridState (players s) in
    saveResetGame now
      {| gameName := gameName s; players := players s;
         grid := initialGridState; history := [];
         originalGrid := initialGridState;
         originalHistory := originalHistory s;
         changesMade := true; isWinnerDeclared := isWinnerDeclared s;
         hasSaved := hasSaved s |}
  else mret s.

(** ** Runs of the session *)

Inductive Action : Set :=
| Tap (rowIndex colIndex : nat)
| Undo
| Reset (confirmed : bool).

Definition step (now : Clock) (a : Action) (s : Session) : Async Session :=
  match a with
  | Tap rowIndex colIndex => handleCellPress now rowIndex colIndex s
  | Undo => handleUndo now s
  | Reset confirmed => handleResetBoard now confirmed s
  end.

Fixpoint run (events : list (Clock * Action)) (s : Session) : Async Session :=
  match events with
  | [] => mret s
  | (now, a) :: rest => s' ← step now a s; run rest s'
  end.

(** ** Invariants and predicates of the specification *)

(** A cell of the data model: defined, with [taps] in [0,3]. *)
Definition cell_ok (oc : option Cell) : Prop :=
  match oc with
  | Some cell => (0 ≤ taps cell ≤ 3)%Z
  | None => False
  end.

#[global] Instance cell_ok_dec oc : Decision (cell_ok oc).
Proof. destruct oc; simpl; apply _. Defined.

(** The grid invariant: 7 rows, [playerCount] cells a row, taps in [0,3]. *)
Definition grid_inv (playerCount : nat) (g : Grid) : Prop :=
  length g = 7 ∧ Forall (λ row : Row, length row = playerCount ∧ Forall cell_ok row) g.

#[global] Instance grid_inv_dec n g : Decision (grid_inv n g).
Proof. unfold grid_inv. apply _. Defined.

(** A move a tap on such a grid can have recorded. *)
Definition move_ok (playerCount : nat) (m : Move) : Prop :=
  rowIndex m < 7 ∧ colIndex m < playerCount ∧ (0 ≤ previousTaps m ≤ 3)%Z.

#[global] Instance move_ok_dec n m : Decision (move_ok n m).
Proof. unfold move_ok. apply _. Defined.

Definition history_inv (playerCount : nat) (h : list Move) : Prop :=
  Forall (move_ok playerCount) h.

(** Column [colIndex] is closed: each of its 7 cells has 3 taps. *)
Definition closed (g : Grid) (colIndex : nat) : Prop :=
  ∀ i, i < 7 → cellAt g i colIndex = Ok {| taps := 3 |}.

(** The records of a collection that bear a given name. *)
Definition named (name : string) (games : list GameRecord.t) : list GameRecord.t :=
  filter (λ game, GameRecord.gameName game = name) games.

(** An action whose tap, if it is one, is on a cell of a 7 × [playerCount]
    grid. *)
Definition in_range (playerCount : nat) (a : Action) : Prop :=
  match a with
  | Tap rowIndex colIndex => rowIndex < 7 ∧ colIndex < playerCount
  | _ => True
  end.

#[global] Instance in_range_dec n a : Decision (in_range n a).
Proof. destruct a; simpl; apply _. Defined.

(** What a route parameter contributes when nothing is thrown. *)
Definition param_value {A} (p : param A) (dflt : A) : A :=
  match p with
  | Parsed v => v
  | _ => dflt
  end.

Definition unparsable {A} (p : param A) : Prop :=
  match p with
  | Unparsable _ => True
  | _ => False
  end.

(** The session once [saveGame] has stored it. *)
Definition saved (s : Session) : Session :=
  {| gameName := gameName s; players := players s;
     grid := grid s; history := history s;
     originalGrid := grid s; originalHistory := originalHistory s;
     changesMade := false; isWinnerDeclared := isWinnerDeclared s;
     hasSaved := true |}.

(** The session once [setIsWinnerDeclared(true)] has run. *)
Definition declared (s : Session) : Session :=
  {| gameName := gameName s; players := players s;
     grid := grid s; history := history s;
     originalGrid := originalGrid s; originalHistory := originalHistory s;
     changesMade := changesMade s; isWinnerDeclared := true;
     hasSaved := hasSaved s |}.

(** The popup that names the player of column [colIndex]. *)
Definition popup (now : Clock) (s : Session) (colIndex : nat) : WinnerPopup :=
  {| playerName := players s !! colIndex; popupDate := toLocaleDateString now |}.

Definition is_tap (a : Action) : Prop :=
  match a with
  | Tap _ _ => True
  | _ => False
  end.

#[global] Instance is_tap_dec a : Decision (is_tap a).
Proof. destruct a; simpl; apply _. Defined.

(** ** The earlier copy of the screen

    [game-screen.js] at the root of the repository is an earlier copy of the
    screen, outside the [app/] directory the router serves.  Its session
    construction and its [saveGame] differ from those above. *)
Module Legacy.

Record Session : Type := {
  gameName : string;
  players : list string;
  gameGrid : Grid;
  moveHistory : list Move;
  originalGrid : Grid;
  redirected : bool;
}.

(** The [try] block over the three [JSON.parse] calls: what is assigned
    before the throw stays, the rest keeps its initial value ([players]
    the two default players, [grid] and [history] the empty array), and the
    [catch] redirects to '/game-setup'. *)
Definition GameScreenPage (params : SearchParams) : Session :=
  let gameName := default "Game"%string (gameNameParam params) in
  let start players grid history redirected :=
    {| gameName := gameName; players := players;
       gameGrid := grid; moveHistory := history; originalGrid := grid;
       redirected := redirected |} in
  match parse_or (playersParam params) defaultPlayers with
  | Throw _ => start defaultPlayers [] [] true
  | Ok players =>
      match parse_or (gridParam params) (initialGridState players) with
      | Throw _ => start players [] [] true
      | Ok grid =>
          match parse_or (historyParam params) [] with
          | Throw _ => start players grid [] true
          | Ok history => start players grid history false
          end
      end
  end.

Definition gameData (now : Clock) (s : Session) : GameRecord.t :=
  {| GameRecord.gameName := gameName s;
     GameRecord.players := players s;
     GameRecord.grid := gameGrid s;
     GameRecord.history := Some (moveHistory s);
     GameRecord.date := toLocaleDateString now;
     GameRecord.time := None;
     GameRecord.winner := None |}.

(** [saveGame]: the records dropped are those whose grid serializes as
    [originalGrid] does.  The early return on a missing grid or history is
    never taken, both being arrays. *)
Definition saveGame (now : Clock) (s : Session) : Async unit :=
  let gameData := gameData now s in
  try_catch
    (existingGames ← getItem "inProgressGames";
     let games := default [] existingGames in
     let updatedGames :=
       filter (λ game, GameRecord.grid game ≠ originalGrid s) games
       ++ [gameData] in
     setItem "inProgressGames" updatedGames)
    (λ error, mret ()).

(** The earlier screen of 'Test Game' after one tap on row 0, column 0:
    [originalGrid] is still the grid the session started on. *)
Definition afterOneTap : Session :=
  {| gameName := "Test Game"; players := defaultPlayers;
     gameGrid := <[0 := [Some {| taps := 1 |}; Some {| taps := 0 |}]]>
                   (initialGridState defaultPlayers);
     moveHistory := [{| rowIndex := 0; colIndex := 0; previousTaps := 0 |}];
     originalGrid := initialGridState defaultPlayers;
     redirected := false |}.

End Legacy.

(** ** Sessions and stores to evaluate on *)

Definition morning : Clock :=
  {| toLocaleDateString := "5/20/2023"; toLocaleTimeString := "10:15:00 AM" |}.

Definition evening : Clock :=
  {| toLocaleDateString := "5/21/2023"; toLocaleTimeString := "9:40:00 PM" |}.

(** The session the router builds for a new two-player game 'Test Game'. *)
Definition testGame : Session :=
  {| gameName := "Test Game"; players := defaultPlayers;
     grid := initialGridState defaultPlayers; history := [];
     originalGrid := initialGridState defaultPlayers; originalHistory := [];
     changesMade := false; isWinnerDeclared := false; hasSaved := false |}.

Definition emptyStore : World :=
  {| items := ∅; available := true; pushed := [] |}.

(** Three taps on each cell of column [colIndex], in row order. *)
Definition closeColumn (now : Clock) (colIndex : nat) : list (Clock * Action) :=
  row ← seq 0 7;
  [(now, Tap row colIndex); (now, Tap row colIndex); (now, Tap row colIndex)].

(** [n] taps on the cell of row 0, column [colIndex]. *)
Definition tapTimes (now : Clock) (n colIndex : nat) : list (Clock * Action) :=
  replicate n (now, Tap 0 colIndex).

(** A store in which a game named 'Test Game' won by 'Player 1' is already
    completed, and another game of that name is in progress. *)
Definition rematchStore : World :=
  put "inProgressGames" [gameData morning testGame]
    (put "completedGames" [completedGame morning testGame (Some "Player 1"%string)]
       emptyStore).

(** 'Test Game' one tap short of a win for column 0: every cell of the
    column is closed but the one of row 0, which has two taps. *)
Definition beforeLastTap : list (Clock * Action) :=
  tapTimes morning 2 0 ++ drop 3 (closeColumn morning 0).

(** Route parameters whose list of players is not JSON. *)
Definition plainTextPlayers : SearchParams :=
  {| gameNameParam := Some "Test Game"%string;
     playersParam := Unparsable "Player 1,Player 2";
     gridParam := Absent; historyParam := Absent |}.

Definition fivePlayers : list string := ["Ann"; "Bob"; "Cy"; "Di"; "Ed"]%string.

(** ** The focus effect *)

(** [fetchGameState], run when the screen gains focus.  The call to
    [getItem] is not guarded: a rejection rejects the promise of
    [fetchGameState] itself ([Throw StorageError]) and sets nothing.  A stored
    record without a [history] key would leave the history cell [undefined],
    a state the session type has no value for; the [TypeError] of the reads
    that follow ([history.length], the spread of the tap) is raised here. *)
Definition fetchGameState (s : Session) : Async Session :=
  existingGames ← getItem "inProgressGames";
  let games := default [] existingGames in
  match list_find (λ game, GameRecord.gameName game = gameName s) games with
  | Some (_, currentGame) =>
      match GameRecord.history currentGame with
      | Some moves =>
          mret {| gameName := gameName s; players := players s;
                  grid := GameRecord.grid currentGame; history := moves;
                  originalGrid := GameRecord.grid currentGame;
                  originalHistory := originalHistory s;
                  changesMade := changesMade s;
                  isWinnerDeclared := isWinnerDeclared s;
                  hasSaved := hasSaved s |}
      | None => lift (Throw TypeError)
      end
  | None => mret s
  end.

(** ** What the screen shows *)

Definition renderCellContent (taps : Z) : string :=
  if decide (taps = 1%Z) then "/"
  else if decide (taps = 2%Z) then "X"
  else if decide (taps = 3%Z) then "Ⓧ"
  else EmptyString.

Inductive TextStyle : Set := normalText | largeText.

Definition getCellFontSize (taps : Z) : TextStyle :=
  if decide (taps = 3%Z) then largeText else normalText.

Definition getNumberColumnPosition (players : list string) : nat :=
  if decide (length players = 2) then 1
  else if decide (length players = 3) then 2
  else if decide (length players = 4) then 2
  else length players.

(** The cells of the grid container, row by row. *)
Inductive View : Type :=
| BlankCell
| PlayerName (player : string)
| NumberCell (row : string)
| ScoreCell (rowIndex colIndex : nat) (content : string) (style : TextStyle).

(** The top row: [players.map((player, index) => ...)], from [index] on. *)
Fixpoint renderHeaderFrom (position index : nat) (players : list string)
    : list View :=
  match players with
  | [] => []
  | player :: rest =>
      (if decide (index = position) then [BlankCell] else [])
      ++ PlayerName player :: renderHeaderFrom position (S index) rest
  end.

(** One row of the grid: [players.map((_, colIndex) => ...)], from
    [colIndex] on; the cell read is [grid[rowIndex][colIndex]]. *)
Fixpoint renderRowFrom (g : Grid) (position rowIndex : nat) (row : string)
    (colIndex : nat) (players : list string) : result (list View) :=
  match players with
  | [] => Ok []
  | _ :: rest =>
      cell ← cellAt g rowIndex colIndex;
      views ← renderRowFrom g position rowIndex row (S colIndex) rest;
      Ok ((if decide (colIndex = position) then [NumberCell row] else [])
          ++ ScoreCell rowIndex colIndex (renderCellContent (taps cell))
               (getCellFontSize (taps cell)) :: views)
  end.

Definition renderHeader (s : Session) : list View :=
  renderHeaderFrom (getNumberColumnPosition (players s)) 0 (players s).

Definition renderRow (s : Session) (rowIndex : nat) (row : string)
    : result (list View) :=
  renderRowFrom (grid s) (getNumberColumnPosition (players s)) rowIndex row 0
    (players s).

(** The cell the screen shows for row [rowIndex], column [colIndex] of a
    grid that has it. *)
Definition scoreCell (g : Grid) (rowIndex colIndex : nat) : option View :=
  match cellAt g rowIndex colIndex with
  | Ok cell =>
      Some (ScoreCell rowIndex colIndex (renderCellContent (taps cell))
              (getCellFontSize (taps cell)))
  | Throw _ => None
  end.

Definition is_number (v : View) : Prop :=
  match v with
  | NumberCell _ => True
  | _ => False
  end.

#[global] Instance is_number_dec v : Decision (is_number v).
Proof. destruct v; simpl; apply _. Defined.

Definition is_blank (v : View) : Prop :=
  match v with
  | BlankCell => True
  | _ => False
  end.

#[global] Instance is_blank_dec v : Decision (is_blank v).
Proof. destruct v; simpl; apply _. Defined.

(** ** Further predicates *)

#[global] Instance unparsable_dec {A} (p : param A) : Decision (unparsable p).
Proof. destruct p; simpl; apply _. Defined.

#[global] Instance Action_eq_dec : EqDecision Action.
Proof. solve_decision. Defined.

(** The session as [handleCellPress] leaves it before the win check. *)
Definition tapped (rowIndex colIndex : nat) (previousTaps : Z) (newGrid : Grid)
    (s : Session) : Session :=
  {| gameName := gameName s; players := players s;
     grid := newGrid;
     history := history s ++ [{| rowIndex := rowIndex; colIndex := colIndex;
                                 previousTaps := previousTaps |}];
     originalGrid := originalGrid s; originalHistory := originalHistory s;
     changesMade := true; isWinnerDeclared := isWinnerDeclared s;
     hasSaved := hasSaved s |}.

(** The session as [handleUndo] hands it to [saveGame]. *)
Definition undone (updatedGrid : Grid) (s : Session) : Session :=
  {| gameName := gameName s; players := players s;
     grid := updatedGrid; history := removelast (history s);
     originalGrid := originalGrid s; originalHistory := originalHistory s;
     changesMade := true; isWinnerDeclared := isWinnerDeclared s;
     hasSaved := hasSaved s |}.

(** What of a session the players see and the handlers decide on. *)
Definition board (s : Session) : list string * Grid * list Move * bool :=
  (players s, grid s, history s, isWinnerDeclared s).

(** The number of taps on the cell of row [i], column [j] in a list of
    events. *)
Definition tapsOn (i j : nat) (events : list (Clock * Action)) : Z :=
  Z.of_nat (length (filter (λ e : Clock * Action, e.2 = Tap i j) events)).

(** 'Test Game' after one tap on row 0, column 0. *)
Definition tappedOnce : Session :=
  {| gameName := "Test Game"; players := defaultPlayers;
     grid := <[0 := [Some {| taps := 1 |}; Some {| taps := 0 |}]]>
               (initialGridState defaultPlayers);
     history := [{| rowIndex := 0; colIndex := 0; previousTaps := 0 |}];
     originalGrid := initialGridState defaultPlayers; originalHistory := [];
     changesMade := true; isWinnerDeclared := false; hasSaved := false |}.


(** A session of five players on a grid of two columns, as route
    parameters that disagree give it. *)
Definition narrowGrid : Session :=
  {| gameName := "Test Game"; players := fivePlayers;
     grid := initialGridState defaultPlayers; history := [];
     originalGrid := initialGridState defaultPlayers; originalHistory := [];
     changesMade := false; isWinnerDeclared := false; hasSaved := false |}.

(** A store whose calls are rejected. *)
Definition offline : World :=
  {| items := ∅; available := false; pushed := [] |}.

(** * Properties *)

(** ** The store primitives *)

Section store.
Context (w : World).
Hypothesis Havailable : available w = true.

Lemma getItem_available key : getItem key w = (Ok (items w !! key), w).
Proof using Havailable. unfold getItem. by rewrite Havailable. Qed.

Lemma setItem_available key value : setItem key value w = (Ok (), put key value w).
Proof using Havailable. unfold setItem. by rewrite Havailable. Qed.
End store.

Lemma collection_put key value w : collection key (put key value w) = value.
Proof. unfold collection, put; simpl. by rewrite lookup_insert_eq. Qed.

Lemma collection_put_ne key key' value w :
  key ≠ key' → collection key' (put key value w) = collection key' w.
Proof. intros. unfold collection, put; simpl. by rewrite lookup_insert_ne. Qed.

Lemma inProgressGames_put value w :
  inProgressGames (put "inProgressGames" value w) = value.
Proof. apply collection_put. Qed.

Lemma completedGames_put value w :
  completedGames (put "completedGames" value w) = value.
Proof. apply collection_put. Qed.

Lemma inProgressGames_put_completed value w :
  inProgressGames (put "completedGames" value w) = inProgressGames w.
Proof. by apply collection_put_ne. Qed.

Lemma completedGames_put_inProgress value w :
  completedGames (put "inProgressGames" value w) = completedGames w.
Proof. by apply collection_put_ne. Qed.

Lemma named_app name l1 l2 : named name (l1 ++ l2) = named name l1 ++ named name l2.
Proof. apply filter_app. Qed.

Lemma named_others name games :
  named name (filter (λ game, GameRecord.gameName game ≠ name) games) = [].
Proof.
  unfold named. induction games as [|game games IH]; [done|].
  rewrite (filter_cons _ game). case_decide as Hne; [|done].
  rewrite (filter_cons _ game). by case_decide.
Qed.

Lemma named_singleton name game :
  GameRecord.gameName game = name → named name [game] = [game].
Proof. intros. unfold named. rewrite filter_cons, filter_nil. by case_decide. Qed.

Lemma saveGame_available now s w :
  available w = true →
  saveGame now s w =
    (Ok (saved s),
     put "inProgressGames"
       (filter (λ game, GameRecord.gameName game ≠ gameName s) (inProgressGames w)
        ++ [gameData now s]) w).
Proof.
  intros Hav. unfold saveGame, try_catch, mbind, Async_bind.
  rewrite getItem_available by done.
  rewrite setItem_available by done. done.
Qed.

Lemma saveGame_unavailable now s w :
  available w = false → saveGame now s w = (Ok s, w).
Proof.
  intros Hav. unfold saveGame, try_catch, mbind, Async_bind, getItem.
  by rewrite Hav.
Qed.

Lemma saveGame_session now s w :
  ∃ s' w', saveGame now s w = (Ok s', w') ∧
    gameName s' = gameName s ∧ players s' = players s ∧
    grid s' = grid s ∧ history s' = history s ∧
    isWinnerDeclared s' = isWinnerDeclared s ∧
    available w' = available w ∧ pushed w' = pushed w.
Proof.
  destruct (available w) eqn:Hav.
  - rewrite saveGame_available by done. by eexists _, _.
  - rewrite saveGame_unavailable by done. by eexists _, _.
Qed.

Lemma saveResetGame_available now s w :
  available w = true →
  ∃ s', saveResetGame now s w =
    (Ok s',
     put "inProgressGames"
       (filter (λ game, GameRecord.gameName game ≠ gameName s) (inProgressGames w)
        ++ [resetGameHistory now s]) w) ∧
    grid s' = grid s ∧ history s' = history s ∧
    isWinnerDeclared s' = isWinnerDeclared s.
Proof.
  intros Hav. unfold saveResetGame, try_catch, mbind, Async_bind.
  rewrite getItem_available by done.
  rewrite setItem_available by done. by eexists.
Qed.

Lemma saveResetGame_session now s w :
  ∃ s' w', saveResetGame now s w = (Ok s', w') ∧
    gameName s' = gameName s ∧ players s' = players s ∧
    grid s' = grid s ∧ history s' = history s ∧
    isWinnerDeclared s' = isWinnerDeclared s ∧
    available w' = available w ∧ pushed w' = pushed w.
Proof.
  unfold saveResetGame, try_catch, mbind, Async_bind, getItem, setItem.
  destruct (available w) eqn:Hav; simpl; rewrite ?Hav; simpl.
  all: eexists _, _; split; [reflexivity|]; done.
Qed.

Lemma removeFromInProgress_available s w :
  available w = true →
  removeFromInProgress s w =
    (Ok (),
     put "inProgressGames"
       (filter (λ game, GameRecord.gameName game ≠ gameName s) (inProgressGames w)) w).
Proof.
  intros Hav. unfold removeFromInProgress, try_catch, mbind, Async_bind.
  rewrite getItem_available by done.
  by rewrite setItem_available by done.
Qed.

Lemma saveCompletedGame_available now s winnerName w :
  available w = true →
  saveCompletedGame now s winnerName w =
    (Ok (),
     put "inProgressGames"
       (filter (λ game, GameRecord.gameName game ≠ gameName s) (inProgressGames w))
       (put "completedGames"
          (completedGames w ++ [completedGame now s winnerName]) w)).
Proof.
  intros Hav. unfold saveCompletedGame, try_catch, mbind, Async_bind.
  rewrite getItem_available by done.
  rewrite setItem_available by done.
  rewrite removeFromInProgress_available by done.
  by rewrite inProgressGames_put_completed.
Qed.

Lemma saveCompletedGame_unavailable now s winnerName w :
  available w = false → saveCompletedGame now s winnerName w = (Ok (), w).
Proof.
  intros Hav. unfold saveCompletedGame, try_catch, mbind, Async_bind, getItem.
  by rewrite Hav.
Qed.

Lemma saveCompletedGame_world now s winnerName w :
  ∃ w', saveCompletedGame now s winnerName w = (Ok (), w') ∧
    available w' = available w ∧ pushed w' = pushed w.
Proof.
  destruct (available w) eqn:Hav.
  - rewrite saveCompletedGame_available by done. by eexists.
  - rewrite saveCompletedGame_unavailable by done. by eexists.
Qed.

(** ** Upsert into the in-progress collection *)

(** C1. [saveGame] drops from "inProgressGames" every record whose
    [gameName] is the session's, whatever else the record holds, keeps every
    record of another name, and appends the record of the session; saved
    twice, the collection holds exactly one record of that name. *)
Theorem saveGame_upsert_by_name (now now' : Clock) (s : Session) (w : World) :
  available w = true →
  ∃ s1 w1 s2 w2,
    saveGame now s w = (Ok s1, w1) ∧
    saveGame now' s1 w1 = (Ok s2, w2) ∧
    inProgressGames w1 =
      filter (λ game, GameRecord.gameName game ≠ gameName s) (inProgressGames w)
      ++ [gameData now s] ∧
    named (gameName s) (inProgressGames w1) = [gameData now s] ∧
    named (gameName s) (inProgressGames w2) = [gameData now' s] ∧
    (∀ game, game ∈ inProgressGames w →
       GameRecord.gameName game ≠ gameName s →
       game ∈ inProgressGames w1 ∧ game ∈ inProgressGames w2) ∧
    (∀ game, game ∈ inProgressGames w1 →
       GameRecord.gameName game = gameName s → game = gameData now s).
Proof.
  intros Hav.
  rewrite saveGame_available by done.
  eexists _, _, _, _. split; [done|].
  rewrite saveGame_available by done. split; [done|].
  rewrite !inProgressGames_put.
  change (gameName (saved s)) with (gameName s).
  change (gameData now' (saved s)) with (gameData now' s).
  set (others := filter _ (inProgressGames w)).
  assert (Hothers : named (gameName s) others = []) by apply named_others.
  assert (Hidem : filter (λ game, GameRecord.gameName game ≠ gameName s)
                    (others ++ [gameData now s]) = others).
  { rewrite filter_app, filter_cons, filter_nil. simpl.
    case_decide; [done|]. rewrite app_nil_r.
    subst others. apply list_filter_filter_l. done. }
  split; [done|]. split.
  { rewrite named_app, Hothers. by apply named_singleton. }
  split.
  { rewrite Hidem, named_app, Hothers. by apply named_singleton. }
  split.
  - intros game Hin Hne. rewrite Hidem.
    split; apply elem_of_app; left; subst others; by apply list_elem_of_filter.
  - intros game Hin Hname.
    apply elem_of_app in Hin as [Hin|Hin].
    + subst others. apply list_elem_of_filter in Hin as [Hne _]. done.
    + by apply list_elem_of_singleton in Hin.
Qed.

Lemma saveGame_upsert_by_name_witness :
  available rematchStore = true ∧
  named (gameName testGame)
    (inProgressGames (saveGame evening testGame rematchStore).2)
  = [gameData evening testGame].
Proof.
  split; [reflexivity|].
  destruct (saveGame_upsert_by_name evening evening testGame rematchStore eq_refl)
    as (s1 & w1 & s2 & w2 & Hsave & _ & _ & Hone & _).
  rewrite Hsave. exact Hone.
Defined.

(** ** Cells of a grid that satisfies the invariant *)

Lemma grid_inv_lookup n g r c :
  grid_inv n g → r < 7 → c < n →
  ∃ row cell, g !! r = Some row ∧ length row = n ∧ Forall cell_ok row ∧
    row !! c = Some (Some cell) ∧ (0 ≤ taps cell ≤ 3)%Z.
Proof.
  intros [Hlen Hrows] Hr Hc.
  destruct (lookup_lt_is_Some_2 g r) as [row Hrow]; [lia|].
  pose proof (Forall_lookup_1 _ _ _ _ Hrows Hrow) as [Hn Hcells].
  destruct (lookup_lt_is_Some_2 row c) as [oc Hoc]; [lia|].
  pose proof (Forall_lookup_1 _ _ _ _ Hcells Hoc) as Hok.
  destruct oc as [cell|]; [|done].
  by exists row, cell.
Qed.

Lemma cellAt_Ok g r c cell :
  cellAt g r c = Ok cell ↔ ∃ row, g !! r = Some row ∧ row !! c = Some (Some cell).
Proof.
  unfold cellAt. split.
  - destruct (g !! r) as [row|] eqn:Hrow; [|done].
    destruct (row !! c) as [[cell'|]|] eqn:Hcell; try done.
    intros [= ->]. by exists row.
  - intros (row & -> & ->). done.
Qed.

Lemma storeAt_in_range (row : Row) c cell :
  c < length row → storeAt row c cell = <[c := Some cell]> row.
Proof. intros. unfold storeAt. by case_decide. Qed.

Lemma setCell_in_range (g : Grid) r c (row : Row) cell :
  g !! r = Some row → c < length row →
  setCell g r c cell = Ok (<[r := <[c := Some cell]> row]> g).
Proof. intros Hrow Hc. unfold setCell. by rewrite Hrow, storeAt_in_range. Qed.

Lemma grid_inv_insert n (g : Grid) r c (row : Row) cell :
  grid_inv n g → g !! r = Some row → (0 ≤ taps cell ≤ 3)%Z →
  grid_inv n (<[r := <[c := Some cell]> row]> g).
Proof.
  intros [Hlen Hrows] Hrow Hcell. split; [by rewrite length_insert|].
  apply Forall_insert; [done|].
  pose proof (Forall_lookup_1 _ _ _ _ Hrows Hrow) as [Hn Hcells].
  simpl. split; [by rewrite length_insert|].
  destruct (decide (c < length row)).
  - by apply Forall_insert.
  - by rewrite list_insert_ge by lia.
Qed.

(** Writing back the cell that is there changes nothing. *)
Lemma setCell_same (g : Grid) r c cell :
  cellAt g r c = Ok cell → setCell g r c {| taps := taps cell |} = Ok g.
Proof.
  intros (row & Hrow & Hcell)%cellAt_Ok.
  rewrite (setCell_in_range g r c row); [|done|by eapply lookup_lt_Some].
  destruct cell as [t]; simpl.
  rewrite (list_insert_id row c) by done. by rewrite list_insert_id.
Qed.

(** A write followed by a write to the same cell is the second write. *)
Lemma setCell_setCell (g g' : Grid) r c cell cell' :
  cellAt g r c = Ok cell →
  setCell g r c cell' = Ok g' →
  setCell g' r c {| taps := taps cell |} = Ok g.
Proof.
  intros (row & Hrow & Hcell)%cellAt_Ok.
  assert (c < length row) as Hc by by eapply lookup_lt_Some.
  assert (r < length g) as Hr by by eapply lookup_lt_Some.
  rewrite (setCell_in_range g r c row) by done. intros [= <-].
  rewrite (setCell_in_range _ r c (<[c := Some cell']> row)).
  - rewrite list_insert_insert_eq, list_insert_insert_eq.
    destruct cell as [t]; simpl.
    rewrite (list_insert_id row c) by done. by rewrite list_insert_id.
  - by apply list_lookup_insert_eq.
  - by rewrite length_insert.
Qed.

Lemma cellAt_insert (g : Grid) r c (row : Row) cell i j :
  g !! r = Some row → c < length row →
  cellAt (<[r := <[c := Some cell]> row]> g) i j =
    if decide (i = r ∧ j = c) then Ok cell else cellAt g i j.
Proof.
  intros Hrow Hc. unfold cellAt.
  assert (r < length g) as Hr by by eapply lookup_lt_Some.
  destruct (decide (i = r)) as [->|Hi].
  - rewrite list_lookup_insert_eq by done. rewrite Hrow.
    destruct (decide (j = c)) as [->|Hj].
    + rewrite list_lookup_insert_eq by done. by rewrite decide_True.
    + rewrite list_lookup_insert_ne by done. rewrite decide_False; [done|tauto].
  - rewrite list_lookup_insert_ne by done. rewrite decide_False; [done|tauto].
Qed.

(** ** The win check *)

Lemma every_taps_3_column (g : Grid) c :
  Forall (λ row : Row, ∃ cell, row !! c = Some (Some cell)) g →
  ∃ isWinner, every_taps_3 (column g c) = Ok isWinner ∧
    (isWinner = true ↔
     Forall (λ row : Row, row !! c = Some (Some {| taps := 3 |})) g).
Proof.
  induction 1 as [|row g [[t] Hcell] _ (b & IH & Hb)]; simpl.
  - exists true. split; [done|]. split; [constructor|done].
  - rewrite Hcell; simpl. case_decide as Ht.
    + exists b. split; [done|]. rewrite Hb. split.
      * intros ?. constructor; [by rewrite Hcell, Ht|done].
      * by inversion 1.
    + exists false. split; [done|]. split; [done|].
      inversion 1 as [|?? Hrow]. rewrite Hcell in Hrow. congruence.
Qed.

Lemma closed_Forall n (g : Grid) c :
  grid_inv n g →
  closed g c ↔ Forall (λ row : Row, row !! c = Some (Some {| taps := 3 |})) g.
Proof.
  intros [Hlen _]. unfold closed. rewrite Forall_lookup. split.
  - intros Hclosed i row Hrow.
    assert (i < 7) as Hi by (rewrite <- Hlen; by eapply lookup_lt_Some).
    apply Hclosed, cellAt_Ok in Hi as (row' & Hrow' & Hcell). congruence.
  - intros Hall i Hi.
    destruct (lookup_lt_is_Some_2 g i) as [row Hrow]; [lia|].
    apply cellAt_Ok. exists row. eauto.
Qed.

Lemma every_taps_3_closed n (g : Grid) c :
  grid_inv n g → c < n →
  ∃ isWinner, every_taps_3 (column g c) = Ok isWinner ∧
    (isWinner = true ↔ closed g c).
Proof.
  intros Hinv Hc.
  destruct (every_taps_3_column g c) as (b & Hb & Hiff).
  - apply Forall_lookup. intros i row Hrow.
    assert (i < 7) as Hi.
    { destruct Hinv as [<- _]. by eapply lookup_lt_Some. }
    destruct (grid_inv_lookup n g i c) as (row' & cell & ? & _ & _ & ? & _);
      [done..|].
    exists cell. congruence.
  - exists b. split; [done|]. by rewrite (closed_Forall n).
Qed.

(** ** The tap handler *)

Lemma checkForWinner_result now s g c isWinner w :
  every_taps_3 (column g c) = Ok isWinner →
  checkForWinner now s g c w =
    if isWinner
    then (Ok (declared s),
          push (popup now s c) (saveCompletedGame now s (players s !! c) w).2)
    else (Ok s, w).
Proof.
  intros Hb. unfold checkForWinner, mbind at 1, Async_bind at 1, lift.
  rewrite Hb. destruct isWinner; [|done].
  unfold mbind, Async_bind, router_push.
  destruct (saveCompletedGame_world now s (players s !! c) w) as (w' & -> & _).
  done.
Qed.

Lemma handleCellPress_won now r c s w :
  isWinnerDeclared s = true → handleCellPress now r c s w = (Ok s, w).
Proof. intros Hwon. unfold handleCellPress. by rewrite Hwon. Qed.

Lemma handleCellPress_active now r c s w n :
  isWinnerDeclared s = false → grid_inv n (grid s) → r < 7 → c < n →
  ∃ cell row s' w',
    cellAt (grid s) r c = Ok cell ∧ (0 ≤ taps cell ≤ 3)%Z ∧
    grid s !! r = Some row ∧ c < length row ∧
    handleCellPress now r c s w = (Ok s', w') ∧
    grid s' = <[r := <[c := Some {| taps := Z.min (taps cell + 1) 3 |}]> row]> (grid s) ∧
    history s' = history s ++
      [{| rowIndex := r; colIndex := c; previousTaps := taps cell |}] ∧
    gameName s' = gameName s ∧ players s' = players s ∧
    grid_inv n (grid s') ∧
    (isWinnerDeclared s' = true ↔ closed (grid s') c) ∧
    w' = if isWinnerDeclared s'
         then push (popup now s c) (saveCompletedGame now s' (players s !! c) w).2
         else w.
Proof.
  intros Hactive Hinv Hr Hc.
  destruct (grid_inv_lookup n _ r c Hinv Hr Hc)
    as (row & cell & Hrow & Hlen & _ & Hcell & Htaps).
  assert (cellAt (grid s) r c = Ok cell) as Hat.
  { apply cellAt_Ok. eauto. }
  set (newCell := {| taps := Z.min (taps cell + 1) 3 |}).
  set (newGrid := <[r := <[c := Some newCell]> row]> (grid s)).
  assert (setCell (grid s) r c newCell = Ok newGrid) as Hset.
  { apply setCell_in_range; [done|lia]. }
  assert (grid_inv n newGrid) as Hinv'.
  { apply grid_inv_insert; [done..|]. subst newCell; simpl. lia. }
  destruct (every_taps_3_closed n newGrid c Hinv' Hc) as (b & Hb & Hclosed).
  exists cell, row.
  unfold handleCellPress. rewrite Hactive.
  unfold mbind at 1, Async_bind at 1, lift at 1. rewrite Hat.
  unfold mbind at 1, Async_bind at 1, lift at 1. fold newCell. rewrite Hset.
  rewrite (checkForWinner_result _ _ _ _ b) by done.
  destruct b.
  - eexists _, _. split_and!; try done; try lia.
  - eexists _, _. split_and!; try done; try lia.
Qed.

(** ** The undo handler *)

Lemma handleUndo_won now s w :
  isWinnerDeclared s = true → handleUndo now s w = (Ok s, w).
Proof. intros Hwon. unfold handleUndo. rewrite Hwon. by case_decide. Qed.

Lemma handleUndo_empty now s w :
  history s = [] → handleUndo now s w = (Ok s, w).
Proof. intros Hnil. unfold handleUndo. rewrite Hnil. by case_decide. Qed.

Lemma handleUndo_active now s w h lastMove updatedGrid :
  isWinnerDeclared s = false →
  history s = h ++ [lastMove] →
  setCell (grid s) (rowIndex lastMove) (colIndex lastMove)
    {| taps := previousTaps lastMove |} = Ok updatedGrid →
  ∃ s' w', handleUndo now s w = (Ok s', w') ∧
    grid s' = updatedGrid ∧ history s' = h ∧
    gameName s' = gameName s ∧ players s' = players s ∧
    isWinnerDeclared s' = false ∧
    available w' = available w ∧ pushed w' = pushed w.
Proof.
  intros Hactive Hhist Hset. unfold handleUndo.
  rewrite Hactive, Hhist, last_snoc, removelast_last.
  case_decide as Hlen; [rewrite length_app in Hlen; simpl in Hlen; lia|].
  unfold mbind, Async_bind, lift. rewrite Hset.
  match goal with |- context [saveGame now ?s1 w] =>
    destruct (saveGame_session now s1 w)
      as (s' & w' & -> & ? & ? & ? & ? & ? & ? & ?)
  end.
  by exists s', w'.
Qed.

(** A move that lies outside the grid is not one a tap records; undoing it
    writes past the end of its row. *)
Lemma handleUndo_foreign_move now s w h lastMove row :
  isWinnerDeclared s = false →
  history s = h ++ [lastMove] →
  grid s !! rowIndex lastMove = Some row →
  length row < colIndex lastMove →
  ∃ s' w', handleUndo now s w = (Ok s', w') ∧
    grid s' !! rowIndex lastMove =
      Some (row ++ replicate (colIndex lastMove - length row) None
                ++ [Some {| taps := previousTaps lastMove |}]).
Proof.
  intros Hactive Hhist Hrow Hcol.
  edestruct (handleUndo_active now s w h lastMove) as (s' & w' & Hundo & Hgrid & _);
    [done..| |].
  { unfold setCell. rewrite Hrow. done. }
  exists s', w'. split; [done|]. rewrite Hgrid.
  rewrite list_lookup_insert_eq by by eapply lookup_lt_Some.
  unfold storeAt. rewrite decide_False by lia. done.
Qed.

(** ** The reset handler *)

Lemma handleResetBoard_cancel now s w : handleResetBoard now false s w = (Ok s, w).
Proof. done. Qed.

Lemma handleResetBoard_confirm now s w :
  ∃ s' w', handleResetBoard now true s w = (Ok s', w') ∧
    grid s' = initialGridState (players s) ∧ history s' = [] ∧
    gameName s' = gameName s ∧ players s' = players s ∧
    isWinnerDeclared s' = isWinnerDeclared s ∧
    available w' = available w ∧ pushed w' = pushed w ∧
    (available w = true →
     inProgressGames w' =
       filter (λ game, GameRecord.gameName game ≠ gameName s) (inProgressGames w)
       ++ [resetGameHistory now s]).
Proof.
  unfold handleResetBoard.
  match goal with |- context [saveResetGame now ?s1 w] =>
    destruct (saveResetGame_session now s1 w)
      as (s' & w' & Hsave & ? & ? & ? & ? & ? & ? & ?);
    pose proof (saveResetGame_available now s1 w) as Hav
  end.
  exists s', w'. split_and!; try done.
  intros Havailable. destruct (Hav Havailable) as (s'' & Hsave' & _).
  rewrite Hsave in Hsave'. injection Hsave' as _ ->.
  by rewrite inProgressGames_put.
Qed.

(** ** The initial grid *)

Lemma initialGridState_rows players :
  initialGridState players =
    replicate 7 (replicate (length players) (Some {| taps := 0 |})).
Proof. done. Qed.

Lemma initialGridState_inv players :
  grid_inv (length players) (initialGridState players).
Proof.
  rewrite initialGridState_rows. split; [done|].
  apply Forall_replicate. split; [by rewrite length_replicate|].
  apply Forall_replicate. simpl. lia.
Qed.

(** ** Preservation of the invariants *)

Lemma handleCellPress_inv now r c s w n :
  grid_inv n (grid s) → r < 7 → c < n →
  ∃ s' w', handleCellPress now r c s w = (Ok s', w') ∧
    players s' = players s ∧ grid_inv n (grid s') ∧
    (history_inv n (history s) → history_inv n (history s')).
Proof.
  intros Hinv Hr Hc. destruct (isWinnerDeclared s) eqn:Hwon.
  - rewrite handleCellPress_won by done. by exists s, w.
  - destruct (handleCellPress_active now r c s w n)
      as (cell & row & s' & w' & _ & Htaps & _ & _ & -> & _ & Hhist & _ & ? & ? & _);
      [done..|].
    exists s', w'. split_and!; try done.
    intros Hh. rewrite Hhist. apply Forall_app. split; [done|].
    apply Forall_singleton. done.
Qed.

Lemma handleUndo_inv now s w n :
  grid_inv n (grid s) → history_inv n (history s) →
  ∃ s' w', handleUndo now s w = (Ok s', w') ∧
    players s' = players s ∧ grid_inv n (grid s') ∧ history_inv n (history s').
Proof.
  intros Hinv Hh. destruct (isWinnerDeclared s) eqn:Hwon.
  { rewrite handleUndo_won by done. by exists s, w. }
  assert (history s = [] ∨ ∃ h0 m0, history s = h0 ++ [m0]) as [Hhist|(h0 & m0 & Hhist)].
  { destruct (history s) using rev_ind; eauto. }
  { rewrite handleUndo_empty by done. by exists s, w. }
  rewrite Hhist in Hh.
  apply Forall_app in Hh as [Hh (Hr & Hc & Ht)%Forall_singleton].
  destruct (grid_inv_lookup n _ _ _ Hinv Hr Hc) as (row & cell & Hrow & Hlen & _).
  destruct (handleUndo_active now s w h0 m0
              (<[rowIndex m0 := <[colIndex m0 := Some {| taps := previousTaps m0 |}]> row]> (grid s)))
    as (s' & w' & -> & Hg & Hh' & _ & ? & _); [done..| |].
  { apply setCell_in_range; [done|lia]. }
  exists s', w'. rewrite Hg, Hh'. split_and!; try done.
  by apply grid_inv_insert.
Qed.

Lemma handleResetBoard_inv now confirmed s w :
  grid_inv (length (players s)) (grid s) →
  ∃ s' w', handleResetBoard now confirmed s w = (Ok s', w') ∧
    players s' = players s ∧ grid_inv (length (players s)) (grid s') ∧
    (history_inv (length (players s)) (history s) →
     history_inv (length (players s)) (history s')).
Proof.
  intros Hinv. destruct confirmed.
  - destruct (handleResetBoard_confirm now s w)
      as (s' & w' & -> & Hg & Hh & _ & ? & _).
    exists s', w'. rewrite Hg, Hh. split_and!; try done.
    + apply initialGridState_inv.
    + intros _. constructor.
  - by exists s, w.
Qed.

(** ** Migration of a won game *)

(** C2, as the code has it.  [saveCompletedGame] appends the completed
    record, bearing the winner name it is given, to "completedGames" and
    takes every record of the session's name out of "inProgressGames";
    completed records of the same name stay, so the completed collection
    holds exactly one record of that name when it held none before. *)
Theorem saveCompletedGame_migrates (now : Clock) (s : Session)
    (winnerName : option string) (w : World) :
  available w = true →
  ∃ w', saveCompletedGame now s winnerName w = (Ok (), w') ∧
    named (gameName s) (inProgressGames w') = [] ∧
    completedGames w' = completedGames w ++ [completedGame now s winnerName] ∧
    GameRecord.winner (completedGame now s winnerName) = winnerName ∧
    named (gameName s) (completedGames w') =
      named (gameName s) (completedGames w) ++ [completedGame now s winnerName] ∧
    (named (gameName s) (completedGames w) = [] →
     named (gameName s) (completedGames w') = [completedGame now s winnerName]).
Proof.
  intros Hav. rewrite saveCompletedGame_available by done.
  eexists. split; [done|].
  rewrite inProgressGames_put, completedGames_put_inProgress, completedGames_put.
  assert (named (gameName s) (completedGames w ++ [completedGame now s winnerName])
          = named (gameName s) (completedGames w) ++ [completedGame now s winnerName])
    as Hnamed.
  { rewrite named_app. f_equal. by apply named_singleton. }
  split_and!; try done.
  - apply named_others.
  - intros Hnone. by rewrite Hnamed, Hnone.
Qed.

Lemma saveCompletedGame_migrates_witness :
  available emptyStore = true ∧
  named "Test Game" (completedGames (saveCompletedGame morning testGame (Some "Player 1"%string) emptyStore).2)
  = [completedGame morning testGame (Some "Player 1"%string)].
Proof.
  split; [reflexivity|].
  destruct (saveCompletedGame_migrates morning testGame (Some "Player 1"%string)
              emptyStore eq_refl) as (w' & Hsave & _ & _ & _ & _ & Hone).
  rewrite Hsave. apply Hone. reflexivity.
Defined.

(** C2, as stated, fails: with a completed record of the same name and
    winner in the store, the migration leaves two. *)
Lemma saveCompletedGame_leaves_two :
  available rematchStore = true ∧
  named "Test Game" (inProgressGames rematchStore) = [gameData morning testGame] ∧
  ∃ w', saveCompletedGame evening testGame (Some "Player 1"%string) rematchStore
        = (Ok (), w') ∧
    named "Test Game" (inProgressGames w') = [] ∧
    length (filter (λ game, GameRecord.winner game = Some "Player 1"%string)
              (named "Test Game" (completedGames w'))) = 2.
Proof.
  split; [reflexivity|]. split; [reflexivity|].
  eexists. split; [vm_compute; reflexivity|]. split; reflexivity.
Qed.

(** ** The session once a winner is declared *)

(** C3, on the code.  After the 21 taps that close column 0 of 'Test Game'
    the winner is declared; a tap and an undo then leave the session and the
    store as they are, but a confirmed reset is carried out: the grid is
    cleared, the history emptied, and the game, already in the completed
    collection, is written to the in-progress collection again. *)
Theorem reset_after_win_is_carried_out :
  ∃ s w, run (closeColumn morning 0) testGame emptyStore = (Ok s, w) ∧
    isWinnerDeclared s = true ∧
    handleCellPress evening 0 1 s w = (Ok s, w) ∧
    handleUndo evening s w = (Ok s, w) ∧
    named "Test Game" (inProgressGames w) = [] ∧
    ∃ s' w', handleResetBoard evening true s w = (Ok s', w') ∧
      isWinnerDeclared s' = true ∧
      grid s' = initialGridState defaultPlayers ∧ grid s' ≠ grid s ∧
      history s' = [] ∧ length (history s) = 21 ∧
      named "Test Game" (inProgressGames w') = [resetGameHistory evening s] ∧
      length (named "Test Game" (completedGames w')) = 1.
Proof.
  eexists _, _. split; [vm_compute; reflexivity|].
  split; [reflexivity|]. split; [reflexivity|]. split; [reflexivity|].
  split; [reflexivity|].
  eexists _, _. split; [vm_compute; reflexivity|].
  split_and!; try reflexivity. discriminate.
Qed.

(** ** The win signal *)

(** C4. A tap on a cell of a grid that satisfies the invariant declares a
    winner exactly when all 7 cells of the tapped column have 3 taps after
    it; the popup it then pushes names the player of the tapped column, and
    no tap pushes a popup for any other column. *)
Theorem tap_reports_closed_column (now : Clock) (r c : nat) (s : Session)
    (w : World) (n : nat) :
  grid_inv n (grid s) → r < 7 → c < n →
  ∃ s' w', handleCellPress now r c s w = (Ok s', w') ∧
    (pushed w' = pushed w ∨ pushed w' = pushed w ++ [popup now s c]) ∧
    (isWinnerDeclared s = false →
     (isWinnerDeclared s' = true ↔ closed (grid s') c) ∧
     (pushed w' = pushed w ++ [popup now s c] ↔ closed (grid s') c)).
Proof.
  intros Hinv Hr Hc. destruct (isWinnerDeclared s) eqn:Hwon.
  { rewrite handleCellPress_won by done. exists s, w. split_and!; by eauto. }
  destruct (handleCellPress_active now r c s w n)
    as (cell & row & s' & w' & _ & _ & _ & _ & -> & _ & _ & _ & _ & _ & Hiff & Hw);
    [done..|].
  exists s', w'.
  assert (pushed w' = if isWinnerDeclared s'
                      then pushed w ++ [popup now s c] else pushed w) as Hpushed.
  { rewrite Hw. destruct (isWinnerDeclared s'); [|done]. simpl.
    destruct (saveCompletedGame_world now s' (players s !! c) w)
      as (w'' & Hsave & _ & Hsame).
    rewrite Hsave. simpl. by rewrite Hsame. }
  split; [done|]. split.
  { rewrite Hpushed. destruct (isWinnerDeclared s'); eauto. }
  intros _. split; [done|]. rewrite <- Hiff, Hpushed.
  destruct (isWinnerDeclared s'); split; try done.
  intros Heq%(f_equal length). rewrite length_app in Heq. simpl in Heq. lia.
Qed.

Lemma tap_reports_closed_column_witness :
  grid_inv 2 (grid testGame) ∧ 0 < 7 ∧ 1 < 2 ∧
  ∃ s' w', handleCellPress morning 0 1 testGame emptyStore = (Ok s', w') ∧
    (pushed w' = pushed emptyStore ∨
     pushed w' = pushed emptyStore ++ [popup morning testGame 1]) ∧
    (isWinnerDeclared testGame = false →
     (isWinnerDeclared s' = true ↔ closed (grid s') 1) ∧
     (pushed w' = pushed emptyStore ++ [popup morning testGame 1] ↔
      closed (grid s') 1)).
Proof.
  split; [compute_done|]. split; [lia|]. split; [lia|].
  apply (tap_reports_closed_column morning 0 1 testGame emptyStore 2);
    [compute_done|lia|lia].
Defined.

(** ** The grid invariant along a run *)

Lemma grid_inv_cellAt n g i j cell :
  grid_inv n g → cellAt g i j = Ok cell → (0 ≤ taps cell ≤ 3)%Z.
Proof.
  intros [_ Hrows] (row & Hrow & Hcell)%cellAt_Ok.
  pose proof (Forall_lookup_1 _ _ _ _ Hrows Hrow) as [_ Hcells].
  by pose proof (Forall_lookup_1 _ _ _ _ Hcells Hcell).
Qed.

Lemma run_cons now a rest s w s1 w1 :
  step now a s w = (Ok s1, w1) → run ((now, a) :: rest) s w = run rest s1 w1.
Proof. intros Hstep. simpl. unfold mbind, Async_bind. by rewrite Hstep. Qed.

Lemma run_app events1 events2 s w :
  run (events1 ++ events2) s w =
    match run events1 s w with
    | (Ok s1, w1) => run events2 s1 w1
    | (Throw e, w1) => (Throw e, w1)
    end.
Proof.
  revert s w. induction events1 as [|[now a] rest IH]; intros s w; [done|].
  simpl. unfold mbind, Async_bind.
  destruct (step now a s w) as [[s1|e] w1]; [apply IH|done].
Qed.

(** Taps alone: the grid invariant needs nothing of the history, and the
    history grows by one move a tap for as long as no winner is declared. *)
Lemma run_taps n events s w :
  grid_inv n (grid s) →
  Forall (λ e : Clock * Action, is_tap e.2 ∧ in_range n e.2) events →
  ∃ s' w', run events s w = (Ok s', w') ∧ grid_inv n (grid s') ∧
    (isWinnerDeclared s' = false →
     isWinnerDeclared s = false ∧
     length (history s') = length (history s) + length events).
Proof.
  intros Hinv Hevents. revert s w Hinv.
  induction Hevents as [|[now a] rest [Htap Hrange] _ IH]; intros s w Hinv.
  { exists s, w. split_and!; [done..|]. intros ?. split; [done|simpl; lia]. }
  destruct a as [r c| |]; try done. simpl in Hrange. destruct Hrange as [Hr Hc].
  destruct (isWinnerDeclared s) eqn:Hwon.
  - rewrite (run_cons _ _ _ _ _ s w) by by apply handleCellPress_won.
    destruct (IH s w Hinv) as (s' & w' & Hrun & Hinv' & Hlen).
    exists s', w'. split_and!; [done..|].
    intros [? _]%Hlen. congruence.
  - destruct (handleCellPress_active now r c s w n)
      as (cell & row & s1 & w1 & _ & _ & _ & _ & Hstep & _ & Hhist & _ & _ & Hinv1 & _);
      [done..|].
    rewrite (run_cons _ _ _ _ _ s1 w1) by done.
    destruct (IH s1 w1 Hinv1) as (s' & w' & Hrun & Hinv' & Hlen).
    exists s', w'. split_and!; [done..|].
    intros [_ ->]%Hlen. split; [done|].
    rewrite Hhist, length_app. simpl. lia.
Qed.

Lemma step_inv now a s w :
  grid_inv (length (players s)) (grid s) →
  history_inv (length (players s)) (history s) →
  in_range (length (players s)) a →
  ∃ s' w', step now a s w = (Ok s', w') ∧ players s' = players s ∧
    grid_inv (length (players s)) (grid s') ∧
    history_inv (length (players s)) (history s').
Proof.
  intros Hinv Hhist Hrange. destruct a as [r c| |confirmed]; simpl.
  - destruct Hrange as [Hr Hc].
    destruct (handleCellPress_inv now r c s w _ Hinv Hr Hc)
      as (s' & w' & ? & ? & ? & Hh).
    exists s', w'. split_and!; auto.
  - by apply handleUndo_inv.
  - destruct (handleResetBoard_inv now confirmed s w Hinv)
      as (s' & w' & ? & ? & ? & Hh).
    exists s', w'. split_and!; auto.
Qed.

Lemma run_inv events s w :
  grid_inv (length (players s)) (grid s) →
  history_inv (length (players s)) (history s) →
  Forall (λ e : Clock * Action, in_range (length (players s)) e.2) events →
  ∃ s' w', run events s w = (Ok s', w') ∧ players s' = players s ∧
    grid_inv (length (players s)) (grid s') ∧
    history_inv (length (players s)) (history s').
Proof.
  intros Hinv Hhist Hevents. revert s w Hinv Hhist Hevents.
  induction events as [|[now a] rest IH]; intros s w Hinv Hhist Hevents.
  { by exists s, w. }
  apply Forall_cons in Hevents as [Hrange Hrest].
  destruct (step_inv now a s w Hinv Hhist Hrange)
    as (s1 & w1 & Hstep & Hplayers & Hinv1 & Hhist1).
  rewrite (run_cons _ _ _ _ _ s1 w1) by done.
  rewrite <- Hplayers in *.
  destruct (IH s1 w1 Hinv1 Hhist1 Hrest) as (s' & w' & ? & ? & ? & ?).
  exists s', w'. split_and!; try done.
Qed.

(** C5. From a session whose grid satisfies the invariant, every sequence
    of taps on cells of the grid ends in a grid that satisfies it, so that no
    cell has more than 3 taps; and when the moves of the history are moves
    on this grid, as those recorded by taps are, so does every sequence of
    taps, undos and resets, confirmed or cancelled. *)
Theorem grid_invariant_preserved (s : Session) (w : World) :
  grid_inv (length (players s)) (grid s) →
  (∀ events : list (Clock * Action),
     Forall (λ e, is_tap e.2 ∧ in_range (length (players s)) e.2) events →
     ∃ s' w', run events s w = (Ok s', w') ∧
       grid_inv (length (players s)) (grid s') ∧
       ∀ i j cell, cellAt (grid s') i j = Ok cell → (0 ≤ taps cell ≤ 3)%Z) ∧
  (history_inv (length (players s)) (history s) →
   ∀ events : list (Clock * Action),
     Forall (λ e, in_range (length (players s)) e.2) events →
     ∃ s' w', run events s w = (Ok s', w') ∧
       grid_inv (length (players s)) (grid s') ∧
       history_inv (length (players s)) (history s')).
Proof.
  intros Hinv. split.
  - intros events Hevents.
    destruct (run_taps _ events s w Hinv Hevents) as (s' & w' & Hrun & Hinv' & _).
    exists s', w'. split_and!; [done..|].
    intros i j cell. by eapply grid_inv_cellAt.
  - intros Hhist events Hevents.
    destruct (run_inv events s w Hinv Hhist Hevents) as (s' & w' & ? & _ & ? & ?).
    by exists s', w'.
Qed.

Lemma grid_invariant_preserved_witness :
  grid_inv (length (players testGame)) (grid testGame) ∧
  history_inv (length (players testGame)) (history testGame) ∧
  (∃ s' w', run (tapTimes morning 5 0) testGame emptyStore = (Ok s', w') ∧
     grid_inv (length (players testGame)) (grid s') ∧
     ∀ i j cell, cellAt (grid s') i j = Ok cell → (0 ≤ taps cell ≤ 3)%Z) ∧
  (∃ s' w',
     run [(morning, Tap 0 0); (morning, Undo); (morning, Tap 6 1);
          (evening, Reset true); (evening, Tap 3 1); (evening, Undo)]
       testGame emptyStore = (Ok s', w') ∧
     grid_inv (length (players testGame)) (grid s') ∧
     history_inv (length (players testGame)) (history s')).
Proof.
  split; [compute_done|]. split; [compute_done|].
  destruct (grid_invariant_preserved testGame emptyStore) as [Htaps Hall];
    [compute_done|].
  split; [apply Htaps|apply Hall]; compute_done.
Defined.

(** ** Undo after a tap *)

(** C6, as the code has it.  A tap on a cell of a grid that satisfies the
    invariant, made while no winner is declared, followed at once by an undo:
    when the tap does not close its column the undo restores the grid and
    the history exactly; when it does, the winner is declared and the undo is
    refused. *)
Theorem undo_after_tap (now now' : Clock) (r c : nat) (s : Session) (w : World)
    (n : nat) :
  isWinnerDeclared s = false → grid_inv n (grid s) → r < 7 → c < n →
  ∃ s1 w1 s2 w2,
    handleCellPress now r c s w = (Ok s1, w1) ∧
    handleUndo now' s1 w1 = (Ok s2, w2) ∧
    (isWinnerDeclared s1 = true ↔ closed (grid s1) c) ∧
    if isWinnerDeclared s1
    then s2 = s1 ∧ w2 = w1
    else grid s2 = grid s ∧ history s2 = history s.
Proof.
  intros Hactive Hinv Hr Hc.
  destruct (handleCellPress_active now r c s w n)
    as (cell & row & s1 & w1 & Hat & _ & Hrow & Hlen & Htap & Hgrid & Hhist
        & _ & _ & _ & Hiff & _); [done..|].
  exists s1, w1. destruct (isWinnerDeclared s1) eqn:Hwon.
  - exists s1, w1. by rewrite handleUndo_won.
  - destruct (handleUndo_active now' s1 w1 (history s)
                {| rowIndex := r; colIndex := c; previousTaps := taps cell |}
                (grid s))
      as (s2 & w2 & Hundo & ? & ? & _); [done..| |].
    { simpl. eapply setCell_setCell; [done|].
      rewrite Hgrid. by apply setCell_in_range. }
    by exists s2, w2.
Qed.

Lemma undo_after_tap_witness :
  isWinnerDeclared testGame = false ∧ grid_inv 2 (grid testGame) ∧ 0 < 7 ∧ 0 < 2 ∧
  ∃ s1 w1 s2 w2,
    handleCellPress morning 0 0 testGame emptyStore = (Ok s1, w1) ∧
    handleUndo evening s1 w1 = (Ok s2, w2) ∧
    (isWinnerDeclared s1 = true ↔ closed (grid s1) 0) ∧
    if isWinnerDeclared s1
    then s2 = s1 ∧ w2 = w1
    else grid s2 = grid testGame ∧ history s2 = history testGame.
Proof.
  split; [reflexivity|]. split; [compute_done|]. split; [lia|]. split; [lia|].
  apply (undo_after_tap morning evening 0 0 testGame emptyStore 2);
    [reflexivity|compute_done|lia|lia].
Defined.

(** C6, as stated, fails on the tap that wins: 'Test Game' is one tap
    short of closing column 0; the tap on row 0 closes it, the undo that
    follows is refused, and the grid and the history stay as the tap left
    them. *)
Lemma undo_after_winning_tap_restores_nothing :
  ∃ s w s' w',
    run beforeLastTap testGame emptyStore = (Ok s, w) ∧
    isWinnerDeclared s = false ∧ grid_inv 2 (grid s) ∧
    (s1 ← handleCellPress morning 0 0 s; handleUndo morning s1) w = (Ok s', w') ∧
    grid s' ≠ grid s ∧ history s' ≠ history s.
Proof.
  eexists _, _, _, _. split; [vm_compute; reflexivity|].
  split; [reflexivity|]. split; [compute_done|].
  split; [vm_compute; reflexivity|]. split; discriminate.
Qed.

(** ** The history of taps *)

(** C7. A tap made while no winner is declared appends exactly one move,
    holding the indices of the cell and the taps it had, also when the cell
    had 3 taps already and keeps them; a run of taps after which no winner
    is declared has lengthened the history by its number of taps, and so has
    the run with one more tap, whether or not that tap wins. *)
Theorem tap_appends_one_move (now : Clock) (r c : nat) (s : Session) (w : World)
    (n : nat) :
  isWinnerDeclared s = false → grid_inv n (grid s) → r < 7 → c < n →
  (∃ cell s' w',
     cellAt (grid s) r c = Ok cell ∧
     handleCellPress now r c s w = (Ok s', w') ∧
     history s' = history s ++
       [{| rowIndex := r; colIndex := c; previousTaps := taps cell |}] ∧
     cellAt (grid s') r c = Ok {| taps := Z.min (taps cell + 1) 3 |} ∧
     (taps cell = 3%Z → grid s' = grid s)) ∧
  (∀ events : list (Clock * Action),
     Forall (λ e, is_tap e.2 ∧ in_range n e.2) events →
     ∃ s1 w1, run events s w = (Ok s1, w1) ∧
       (isWinnerDeclared s1 = false →
        length (history s1) = length (history s) + length events ∧
        ∃ s2 w2, run (events ++ [(now, Tap r c)]) s w = (Ok s2, w2) ∧
          length (history s2) = length (history s) + length events + 1)).
Proof.
  intros Hactive Hinv Hr Hc. split.
  - destruct (handleCellPress_active now r c s w n)
      as (cell & row & s' & w' & Hat & _ & Hrow & Hlen & Htap & Hgrid & Hhist & _);
      [done..|].
    exists cell, s', w'. split_and!; [done..| |].
    + rewrite Hgrid, cellAt_insert by done. by rewrite decide_True.
    + intros H3. rewrite Hgrid, H3. simpl.
      apply cellAt_Ok in Hat as (row' & Hrow' & Hcell).
      assert (row' = row) as -> by congruence.
      destruct cell as [t]. simpl in H3. subst t.
      rewrite (list_insert_id row c) by done. by rewrite list_insert_id.
  - intros events Hevents.
    destruct (run_taps n events s w Hinv Hevents) as (s1 & w1 & Hrun & Hinv1 & Hlen).
    exists s1, w1. split; [done|]. intros Hactive1.
    destruct (Hlen Hactive1) as [_ Hlen1]. split; [done|].
    destruct (handleCellPress_active now r c s1 w1 n)
      as (cell & row & s2 & w2 & _ & _ & _ & _ & Htap & _ & Hhist & _); [done..|].
    exists s2, w2. split.
    + rewrite run_app, Hrun. simpl. unfold mbind, Async_bind. by rewrite Htap.
    + rewrite Hhist, length_app, Hlen1. simpl. lia.
Qed.

Lemma tap_appends_one_move_witness :
  isWinnerDeclared testGame = false ∧ grid_inv 2 (grid testGame) ∧ 0 < 7 ∧ 0 < 2 ∧
  ∃ s1 w1, run (tapTimes morning 5 0) testGame emptyStore = (Ok s1, w1) ∧
    (isWinnerDeclared s1 = false →
     length (history s1) = length (history testGame) + length (tapTimes morning 5 0) ∧
     ∃ s2 w2, run (tapTimes morning 5 0 ++ [(morning, Tap 0 0)]) testGame emptyStore
              = (Ok s2, w2) ∧
       length (history s2)
       = length (history testGame) + length (tapTimes morning 5 0) + 1).
Proof.
  split; [reflexivity|]. split; [compute_done|]. split; [lia|]. split; [lia|].
  apply (tap_appends_one_move morning 0 0 testGame emptyStore 2);
    [reflexivity|compute_done|lia|lia|compute_done].
Defined.

(** ** Session construction *)

(** C8, as the code has it.  A parameter that is absent is replaced by its
    default: the two default players, the all-zero grid for the players of
    the session, the empty history.  A parameter that is present and does
    not parse is not: [JSON.parse] throws and no session is built. *)
Theorem GameScreenPage_defaults_only_when_absent (params : SearchParams) :
  match GameScreenPage params with
  | Ok s =>
      ¬ unparsable (playersParam params) ∧ ¬ unparsable (gridParam params) ∧
      ¬ unparsable (historyParam params) ∧
      players s = param_value (playersParam params) defaultPlayers ∧
      grid s = param_value (gridParam params) (initialGridState (players s)) ∧
      history s = param_value (historyParam params) [] ∧
      isWinnerDeclared s = false
  | Throw e =>
      e = SyntaxError ∧
      (unparsable (playersParam params) ∨ unparsable (gridParam params) ∨
       unparsable (historyParam params))
  end.
Proof.
  destruct params as [name [|rawp|ps] [|rawg|g] [|rawh|h]];
    unfold GameScreenPage; simpl; tauto.
Qed.

(** C8, as stated, fails: a players parameter that does not parse makes the
    construction of the session throw. *)
Lemma GameScreenPage_throws_on_unparsable :
  unparsable (playersParam plainTextPlayers) ∧
  GameScreenPage plainTextPlayers = Throw SyntaxError.
Proof. split; [exact I|reflexivity]. Qed.

(** ** The initial grid *)

(** C9, as the code has it.  For every list of players, of any length, the
    initial grid has exactly 7 rows, each of as many cells as there are
    players, every cell with 0 taps; no number of players is refused. *)
Theorem initialGridState_any_player_count (players : list string) :
  length (initialGridState players) = 7 ∧
  ∀ row, row ∈ initialGridState players →
    length row = length players ∧ ∀ cell, cell ∈ row → cell = Some {| taps := 0 |}.
Proof.
  rewrite initialGridState_rows. split; [done|].
  intros row [-> _]%elem_of_replicate. split; [by rewrite length_replicate|].
  by intros cell [-> _]%elem_of_replicate.
Qed.

(** C9, as stated, fails outside [2,4]: with five players the initial grid
    is built, 7 rows of 5 cells, and the session starts on it. *)
Lemma initialGridState_five_players :
  ¬ (2 ≤ length fivePlayers ≤ 4) ∧
  initialGridState fivePlayers = replicate 7 (replicate 5 (Some {| taps := 0 |})) ∧
  ∃ s, GameScreenPage {| gameNameParam := None; playersParam := Parsed fivePlayers;
                         gridParam := Absent; historyParam := Absent |} = Ok s ∧
    grid s = initialGridState fivePlayers.
Proof.
  split; [simpl; lia|]. split; [reflexivity|]. by eexists.
Qed.

(** ** The date of a saved record *)

(** C10. Whatever the store holds, a save of the session, by [saveGame] or
    after a reset by [saveResetGame], leaves in "inProgressGames" exactly one
    record of the session's name, dated with the date at which the save is
    made; a later save of the game replaces that date by its own. *)
Theorem save_dates_record_at_save_time (now later : Clock) (s s' : Session)
    (w : World) :
  available w = true → gameName s' = gameName s →
  let dates (w' : World) :=
    GameRecord.date <$> named (gameName s) (inProgressGames w') in
  dates (saveGame now s w).2 = [toLocaleDateString now] ∧
  dates (saveResetGame now s w).2 = [toLocaleDateString now] ∧
  dates (handleResetBoard now true s w).2 = [toLocaleDateString now] ∧
  dates (saveGame later s' (saveGame now s w).2).2 = [toLocaleDateString later] ∧
  dates (saveGame later s' (saveResetGame now s w).2).2 = [toLocaleDateString later] ∧
  dates (saveResetGame later s' (saveGame now s w).2).2 = [toLocaleDateString later].
Proof.
  intros Hav Hname dates.
  assert (Hsave : ∀ t u v, available v = true → gameName u = gameName s →
            dates (saveGame t u v).2 = [toLocaleDateString t]).
  { intros t u v Hv Hu. rewrite saveGame_available by done. subst dates. simpl.
    rewrite inProgressGames_put, named_app, Hu, named_others.
    rewrite named_singleton; [done|]. by rewrite <- Hu. }
  assert (Hreset : ∀ t u v, available v = true → gameName u = gameName s →
            dates (saveResetGame t u v).2 = [toLocaleDateString t]).
  { intros t u v Hv Hu.
    destruct (saveResetGame_available t u v Hv) as (u' & -> & _).
    subst dates. simpl.
    rewrite inProgressGames_put, named_app, Hu, named_others.
    rewrite named_singleton; [done|]. by rewrite <- Hu. }
  assert (available (saveGame now s w).2 = true) as Hav1.
  { by rewrite saveGame_available. }
  assert (available (saveResetGame now s w).2 = true) as Hav2.
  { by destruct (saveResetGame_available now s w Hav) as (u' & -> & _). }
  split_and!; auto.
  unfold handleResetBoard. by apply Hreset.
Qed.

Lemma save_dates_record_at_save_time_witness :
  available rematchStore = true ∧ gameName (declared testGame) = gameName testGame ∧
  GameRecord.date <$> named (gameName testGame)
    (inProgressGames
       (saveGame evening (declared testGame)
          (saveGame morning testGame rematchStore).2).2)
  = [toLocaleDateString evening].
Proof.
  split; [reflexivity|]. split; [reflexivity|].
  apply (save_dates_record_at_save_time morning evening testGame (declared testGame)
           rematchStore); reflexivity.
Defined.

(** ** The earlier copy of the screen *)

(** On a parameter that does not parse the earlier copy does not throw; it
    redirects to the setup screen, and the grid it is left with is the empty
    array, not an all-zero grid. *)
Lemma Legacy_GameScreenPage_unparsable (params : SearchParams) :
  unparsable (playersParam params) ∨ unparsable (gridParam params) →
  Legacy.redirected (Legacy.GameScreenPage params) = true ∧
  Legacy.gameGrid (Legacy.GameScreenPage params) = [] ∧
  Legacy.moveHistory (Legacy.GameScreenPage params) = [].
Proof.
  destruct params as [name [|rawp|ps] [|rawg|g] [|rawh|h]];
    unfold Legacy.GameScreenPage; simpl; tauto.
Qed.

(** The earlier [saveGame] tells records apart by their grid: saved twice
    after a tap, 'Test Game' is in the collection twice. *)
Lemma Legacy_saveGame_by_grid :
  named "Test Game"
    (inProgressGames
       ((Legacy.saveGame morning Legacy.afterOneTap;;
         Legacy.saveGame evening Legacy.afterOneTap) emptyStore).2)
  = [Legacy.gameData morning Legacy.afterOneTap;
     Legacy.gameData evening Legacy.afterOneTap].
Proof. reflexivity. Qed.

(** * Further properties of the screen *)

(** The cleanup of the save effect, which React runs on unmount and whenever
    [isWinnerDeclared] or [changesMade] change, calls [saveGame] from the
    closure of an earlier render; it is outside the handlers modelled here.
    What follows therefore speaks of the session the handlers leave, of the
    completed collection and the popups, which that cleanup never touches,
    and of the store functions themselves. *)

(** ** The handlers, case by case *)

Lemma cellAt_Throw g r c e : cellAt g r c = Throw e → e = TypeError.
Proof.
  unfold cellAt. destruct (g !! r) as [row|]; [|congruence].
  destruct (row !! c) as [[cell|]|]; congruence.
Qed.

Lemma setCell_Throw g r c cell e : setCell g r c cell = Throw e → e = TypeError.
Proof. unfold setCell. destruct (g !! r); congruence. Qed.

Lemma every_taps_3_Throw cells e : every_taps_3 cells = Throw e → e = TypeError.
Proof.
  induction cells as [|[cell|] cells IH]; simpl; [congruence| |congruence].
  case_decide; [done|congruence].
Qed.

Lemma handleCellPress_cases now r c s w :
  handleCellPress now r c s w =
    if isWinnerDeclared s then (Ok s, w) else
    match cellAt (grid s) r c with
    | Throw e => (Throw e, w)
    | Ok cell =>
        match setCell (grid s) r c {| taps := Z.min (taps cell + 1) 3 |} with
        | Throw e => (Throw e, w)
        | Ok newGrid =>
            match every_taps_3 (column newGrid c) with
            | Throw e => (Throw e, w)
            | Ok true =>
                (Ok (declared (tapped r c (taps cell) newGrid s)),
                 push (popup now s c)
                   (saveCompletedGame now (tapped r c (taps cell) newGrid s)
                      (players s !! c) w).2)
            | Ok false => (Ok (tapped r c (taps cell) newGrid s), w)
            end
        end
    end.
Proof.
  unfold handleCellPress. destruct (isWinnerDeclared s) eqn:Hwon; [done|].
  unfold mbind at 1, Async_bind at 1, lift at 1.
  destruct (cellAt (grid s) r c) as [cell|e]; [|done].
  unfold mbind at 1, Async_bind at 1, lift at 1.
  destruct (setCell _ _ _ _) as [newGrid|e]; [|done].
  destruct (every_taps_3 (column newGrid c)) as [b|e] eqn:Hb.
  - rewrite (checkForWinner_result _ _ _ _ b) by done.
    unfold tapped, popup. simpl. rewrite Hwon. by destruct b.
  - unfold checkForWinner, mbind, Async_bind, lift. by rewrite Hb.
Qed.

Lemma handleUndo_cases now s w :
  handleUndo now s w =
    if isWinnerDeclared s then (Ok s, w) else
    match last (history s) with
    | None => (Ok s, w)
    | Some lastMove =>
        match setCell (grid s) (rowIndex lastMove) (colIndex lastMove)
                {| taps := previousTaps lastMove |} with
        | Throw e => (Throw e, w)
        | Ok updatedGrid => saveGame now (undone updatedGrid s) w
        end
    end.
Proof.
  unfold handleUndo. case_decide as Hlen.
  - apply nil_length_inv in Hlen. rewrite Hlen. simpl.
    by destruct (isWinnerDeclared s).
  - destruct (isWinnerDeclared s) eqn:Hwon; [done|].
    destruct (last (history s)) as [lastMove|]; [|done].
    unfold mbind, Async_bind, lift.
    destruct (setCell _ _ _ _); [|done].
    unfold undone. by rewrite Hwon.
Qed.

(** The step pushes no popup. *)
Ltac no_popup :=
  exists []; rewrite app_nil_r;
  split_and!;
  first [done | simpl; lia | constructor | intros Hne; by destruct Hne].

(** What a single step can do to the session and the world, on any grid. *)
Lemma step_effects now a s w :
  ∃ r w', step now a s w = (r, w') ∧ available w' = available w ∧
    (available w = false → items w' = items w) ∧
    (∃ ps, pushed w' = pushed w ++ ps ∧ length ps ≤ 1 ∧
       (isWinnerDeclared s = true → ps = []) ∧
       (ps ≠ [] → ∃ s', r = Ok s' ∧ isWinnerDeclared s' = true) ∧
       Forall (λ p, ∃ c, playerName p = players s !! c) ps) ∧
    match r with
    | Ok s' =>
        gameName s' = gameName s ∧ players s' = players s ∧
        (isWinnerDeclared s = true → isWinnerDeclared s' = true)
    | Throw e => e = TypeError ∧ w' = w
    end.
Proof.
  destruct a as [r c| |confirmed]; simpl.
  - rewrite handleCellPress_cases.
    destruct (isWinnerDeclared s) eqn:Hwon.
    { eexists _, _. simpl. split_and!; try done. no_popup. }
    destruct (cellAt (grid s) r c) as [cell|e] eqn:Hcell.
    2:{ eexists _, _. simpl. split_and!; try done; [no_popup|split; [by eapply cellAt_Throw|done]]. }
    destruct (setCell _ _ _ _) as [newGrid|e] eqn:Hset.
    2:{ eexists _, _. simpl. split_and!; try done; [no_popup|split; [by eapply setCell_Throw|done]]. }
    destruct (every_taps_3 _) as [[|]|e] eqn:Hb.
    + destruct (saveCompletedGame_world now (tapped r c (taps cell) newGrid s)
                  (players s !! c) w) as (w1 & Hsave & Hav & Hpushed).
      pose proof (saveCompletedGame_unavailable now
                    (tapped r c (taps cell) newGrid s) (players s !! c) w) as Hoff.
      rewrite Hsave in *. simpl in *.
      eexists _, _. simpl. split_and!; try done.
      * intros Hfalse. specialize (Hoff Hfalse). by injection Hoff as ->.
      * exists [popup now s c]. simpl. rewrite Hpushed. split_and!; try done.
        all: first [ simpl; lia | by intros _; eexists
                   | apply Forall_singleton; by exists c ].
    + eexists _, _. simpl. split_and!; try done. no_popup.
    + eexists _, _. simpl. split_and!; try done; [no_popup|split; [by eapply every_taps_3_Throw|done]].
  - rewrite handleUndo_cases.
    destruct (isWinnerDeclared s) eqn:Hwon.
    { eexists _, _. simpl. split_and!; try done. no_popup. }
    destruct (last (history s)) as [lastMove|].
    2:{ eexists _, _. simpl. split_and!; try done. no_popup. }
    destruct (setCell _ _ _ _) as [updatedGrid|e] eqn:Hset.
    2:{ eexists _, _. simpl. split_and!; try done; [no_popup|split; [by eapply setCell_Throw|done]]. }
    destruct (saveGame_session now (undone updatedGrid s) w)
      as (s' & w' & Hsave & ? & ? & ? & ? & Hw & ? & Hpushed).
    pose proof (saveGame_unavailable now (undone updatedGrid s) w) as Hoff.
    rewrite Hsave in *.
    eexists _, _. simpl. split_and!; try done.
    all: first [ no_popup
               | intros Hfalse; specialize (Hoff Hfalse); by injection Hoff as _ ->
               | simpl in *; split_and!; congruence ].
  - destruct confirmed; simpl.
    2:{ eexists _, _. simpl. split_and!; try done. no_popup. }
    match goal with |- context [saveResetGame now ?s1 w] =>
      destruct (saveResetGame_session now s1 w)
        as (s' & w' & Hsave & ? & ? & ? & ? & Hw & ? & Hpushed);
      assert (available w = false → saveResetGame now s1 w = (Ok s1, w)) as Hoff
    end.
    { intros Hfalse. unfold saveResetGame, try_catch, mbind, Async_bind, getItem.
      by rewrite Hfalse. }
    rewrite Hsave in *.
    eexists _, _. simpl. split_and!; try done.
    all: first [ no_popup
               | intros Hfalse; specialize (Hoff Hfalse); by injection Hoff as _ ->
               | simpl in *; split_and!; congruence ].
Qed.

(** ** Runs on any grid *)

Lemma run_Throw now a rest s w e w1 :
  step now a s w = (Throw e, w1) → run ((now, a) :: rest) s w = (Throw e, w1).
Proof. intros Hstep. simpl. unfold mbind, Async_bind. by rewrite Hstep. Qed.

Lemma run_effects events s w :
  ∃ r w', run events s w = (r, w') ∧ available w' = available w ∧
    (available w = false → items w' = items w) ∧
    (∃ ps, pushed w' = pushed w ++ ps ∧ length ps ≤ 1 ∧
       (isWinnerDeclared s = true → ps = []) ∧
       (ps ≠ [] → ∀ s', r = Ok s' → isWinnerDeclared s' = true) ∧
       Forall (λ p, ∃ c, playerName p = players s !! c) ps) ∧
    match r with
    | Ok s' =>
        gameName s' = gameName s ∧ players s' = players s ∧
        (isWinnerDeclared s = true → isWinnerDeclared s' = true)
    | Throw e => e = TypeError
    end.
Proof.
  revert s w. induction events as [|[now a] rest IH]; intros s w.
  { exists (Ok s), w. simpl. split_and!; try done. no_popup. }
  destruct (step_effects now a s w)
    as (r1 & w1 & Hstep & Hav1 & Hoff1 & (ps1 & Hps1 & Hlen1 & Hwon1 & Hdecl1 & Hall1) & Hr1).
  destruct r1 as [s1|e].
  - destruct Hr1 as (Hname1 & Hplayers1 & Hmono1).
    destruct (IH s1 w1)
      as (r & w' & Hrun & Hav & Hoff & (ps2 & Hps2 & Hlen2 & Hwon2 & Hdecl2 & Hall2) & Hr).
    exists r, w'. rewrite (run_cons _ _ _ _ _ s1 w1) by done.
    assert (ps1 ≠ [] → isWinnerDeclared s1 = true) as Hs1.
    { intros Hne. destruct (Hdecl1 Hne) as (s1' & [= <-] & ?). done. }
    split_and!; [done|congruence| | |].
    + intros Hfalse. rewrite Hoff by congruence. auto.
    + exists (ps1 ++ ps2). split_and!.
      * by rewrite Hps2, Hps1, app_assoc.
      * destruct ps1 as [|p ps1]; [done|].
        rewrite Hwon2 by (apply Hs1; done). rewrite app_nil_r. done.
      * intros Hwon. rewrite Hwon1, Hwon2 by auto. done.
      * intros Hne s' ->. destruct ps1 as [|p ps1].
        -- by apply Hdecl2.
        -- destruct Hr as (_ & _ & Hmono). apply Hmono, Hs1. done.
      * apply Forall_app. split; [done|]. by rewrite <- Hplayers1.
    + destruct r as [s'|e]; [|done].
      destruct Hr as (? & ? & ?). split_and!; [congruence..|auto].
  - destruct Hr1 as [-> ->]. exists (Throw TypeError), w.
    rewrite (run_Throw _ _ _ _ _ TypeError w) by done.
    simpl. split_and!; try done. no_popup.
Qed.


(** X2. A run throws nothing but the [TypeError] of a cell that is not
    there: no failure of the store reaches the screen.  While the store is
    unavailable the run writes nothing to it. *)
Theorem run_swallows_storage_failures (events : list (Clock * Action))
    (s : Session) (w : World) :
  (∀ e, (run events s w).1 = Throw e → e = TypeError) ∧
  available (run events s w).2 = available w ∧
  (available w = false → items (run events s w).2 = items w).
Proof.
  destruct (run_effects events s w) as (r & w' & -> & ? & ? & _ & Hr).
  split_and!; try done. simpl. by intros e ->.
Qed.

(** ** The board does not depend on the store *)

Lemma board_eq s1 s2 :
  board s1 = board s2 ↔
  players s1 = players s2 ∧ grid s1 = grid s2 ∧ history s1 = history s2 ∧
  isWinnerDeclared s1 = isWinnerDeclared s2.
Proof. unfold board. split; [by intros [= -> -> -> ->]|by intros (-> & -> & -> & ->)]. Qed.

Lemma step_board now a s1 s2 w1 w2 :
  board s1 = board s2 →
  match (step now a s1 w1).1, (step now a s2 w2).1 with
  | Ok s1', Ok s2' => board s1' = board s2'
  | Throw e1, Throw e2 => e1 = e2
  | _, _ => False
  end.
Proof.
  intros (Hp & Hg & Hh & Hw)%board_eq. destruct a as [r c| |confirmed]; simpl.
  - rewrite !handleCellPress_cases, Hg, Hw, Hp.
    destruct (isWinnerDeclared s2) eqn:Hw2; simpl; [apply board_eq; split_and!; congruence|].
    destruct (cellAt (grid s2) r c) as [cell|e]; simpl; [|done].
    destruct (setCell _ _ _ _) as [newGrid|e]; simpl; [|done].
    destruct (every_taps_3 _) as [[|]|e]; simpl; [| |done].
    all: apply board_eq; simpl; split_and!; congruence.
  - rewrite !handleUndo_cases, Hg, Hw, Hh.
    destruct (isWinnerDeclared s2) eqn:Hw2; simpl; [apply board_eq; split_and!; congruence|].
    destruct (last (history s2)) as [lastMove|] eqn:Hlast; simpl; [|apply board_eq; split_and!; congruence].
    destruct (setCell _ _ _ _) as [updatedGrid|e]; simpl; [|done].
    destruct (saveGame_session now (undone updatedGrid s1) w1)
      as (s1' & w1' & -> & _ & ? & ? & ? & ? & _).
    destruct (saveGame_session now (undone updatedGrid s2) w2)
      as (s2' & w2' & -> & _ & ? & ? & ? & ? & _).
    simpl in *. apply board_eq. split_and!; congruence.
  - destruct confirmed; simpl; [|apply board_eq; split_and!; congruence].
    unfold handleResetBoard.
    match goal with |- context [saveResetGame now ?u1 w1] =>
      destruct (saveResetGame_session now u1 w1)
        as (s1' & w1' & -> & _ & ? & ? & ? & ? & _)
    end.
    match goal with |- context [saveResetGame now ?u2 w2] =>
      destruct (saveResetGame_session now u2 w2)
        as (s2' & w2' & -> & _ & ? & ? & ? & ? & _)
    end.
    simpl in *. apply board_eq. split_and!; congruence.
Qed.

Lemma run_board events s1 s2 w1 w2 :
  board s1 = board s2 →
  match (run events s1 w1).1, (run events s2 w2).1 with
  | Ok s1', Ok s2' => board s1' = board s2'
  | Throw e1, Throw e2 => e1 = e2
  | _, _ => False
  end.
Proof.
  revert s1 s2 w1 w2.
  induction events as [|[now a] rest IH]; intros s1 s2 w1 w2 Hboard; [done|].
  pose proof (step_board now a s1 s2 w1 w2 Hboard) as Hstep. simpl.
  unfold mbind, Async_bind.
  destruct (step now a s1 w1) as [[s1'|e1] w1'],
           (step now a s2 w2) as [[s2'|e2] w2']; simpl in *; try done.
  by apply IH.
Qed.

(** X3. The players, the grid, the history and the winner flag a run
    leaves, or the error it throws, are the same whatever the store holds
    and whether or not it is available: a failed write loses nothing of the
    game in memory. *)
Theorem run_board_whatever_the_store (events : list (Clock * Action))
    (s : Session) (w1 w2 : World) :
  match (run events s w1).1, (run events s w2).1 with
  | Ok s1, Ok s2 => board s1 = board s2
  | Throw e1, Throw e2 => e1 = e2
  | _, _ => False
  end.
Proof. by apply run_board. Qed.

(** ** Taps *)

(** X4. A tap on a row or a column the grid does not have throws a
    [TypeError] and leaves the store as it is; once the winner is declared it
    is dropped like any other tap. *)
Theorem tap_outside_grid (now : Clock) (r c : nat) (s : Session) (w : World) :
  (length (grid s) ≤ r ∨ ∃ row, grid s !! r = Some row ∧ length row ≤ c) →
  handleCellPress now r c s w =
    if isWinnerDeclared s then (Ok s, w) else (Throw TypeError, w).
Proof.
  intros Hout. rewrite handleCellPress_cases.
  destruct (isWinnerDeclared s); [done|].
  assert (cellAt (grid s) r c = Throw TypeError) as ->; [|done].
  unfold cellAt. destruct Hout as [Hr|(row & -> & Hc)].
  - by rewrite lookup_ge_None_2.
  - by rewrite lookup_ge_None_2.
Qed.

Lemma tap_outside_grid_witness :
  (length (grid testGame) ≤ 0 ∨
   ∃ row, grid testGame !! 0 = Some row ∧ length row ≤ 2) ∧
  handleCellPress morning 0 2 testGame emptyStore = (Throw TypeError, emptyStore).
Proof.
  assert (length (grid testGame) ≤ 0 ∨
          ∃ row, grid testGame !! 0 = Some row ∧ length row ≤ 2) as Hout.
  { right. eexists. split; [reflexivity|]. simpl. lia. }
  split; [exact Hout|].
  exact (tap_outside_grid morning 0 2 testGame emptyStore Hout).
Defined.

(** X5. A tap made while no winner is declared, on a cell of a grid that
    satisfies the invariant, changes that cell and no other, and marks the
    session as changed; unless it closes its column it writes nothing to the
    store and pushes no popup. *)
Theorem tap_changes_one_cell (now : Clock) (r c : nat) (s : Session) (w : World)
    (n : nat) :
  isWinnerDeclared s = false → grid_inv n (grid s) → r < 7 → c < n →
  ∃ cell s' w',
    cellAt (grid s) r c = Ok cell ∧
    handleCellPress now r c s w = (Ok s', w') ∧
    (∀ i j, cellAt (grid s') i j =
       if decide (i = r ∧ j = c)
       then Ok {| taps := Z.min (taps cell + 1) 3 |}
       else cellAt (grid s) i j) ∧
    changesMade s' = true ∧
    (¬ closed (grid s') c → isWinnerDeclared s' = false ∧ w' = w).
Proof.
  intros Hactive Hinv Hr Hc.
  destruct (grid_inv_lookup n _ r c Hinv Hr Hc)
    as (row & cell & Hrow & Hlen & _ & Hcell & Htaps).
  assert (cellAt (grid s) r c = Ok cell) as Hat by (apply cellAt_Ok; eauto).
  set (newCell := {| taps := Z.min (taps cell + 1) 3 |}).
  set (newGrid := <[r := <[c := Some newCell]> row]> (grid s)).
  assert (setCell (grid s) r c newCell = Ok newGrid) as Hset.
  { apply setCell_in_range; [done|lia]. }
  assert (grid_inv n newGrid) as Hinv'.
  { apply grid_inv_insert; [done..|]. subst newCell; simpl. lia. }
  destruct (every_taps_3_closed n newGrid c Hinv' Hc) as (b & Hb & Hclosed).
  exists cell. rewrite handleCellPress_cases, Hactive, Hat.
  fold newCell. rewrite Hset, Hb.
  assert (∀ i j, cellAt newGrid i j =
            if decide (i = r ∧ j = c) then Ok newCell else cellAt (grid s) i j)
    as Hframe.
  { intros i j. apply cellAt_insert; [done|lia]. }
  destruct b.
  - eexists _, _. split_and!; try done.
    intros Hopen. destruct Hopen. by apply Hclosed.
  - eexists _, _. split_and!; try done.
Qed.

Lemma tap_changes_one_cell_witness :
  isWinnerDeclared testGame = false ∧ grid_inv 2 (grid testGame) ∧ 3 < 7 ∧ 1 < 2 ∧
  ∃ cell s' w',
    cellAt (grid testGame) 3 1 = Ok cell ∧
    handleCellPress morning 3 1 testGame emptyStore = (Ok s', w') ∧
    (∀ i j, cellAt (grid s') i j =
       if decide (i = 3 ∧ j = 1)
       then Ok {| taps := Z.min (taps cell + 1) 3 |}
       else cellAt (grid testGame) i j) ∧
    changesMade s' = true ∧
    (¬ closed (grid s') 1 → isWinnerDeclared s' = false ∧ w' = emptyStore).
Proof.
  split; [reflexivity|]. split; [compute_done|]. split; [lia|]. split; [lia|].
  apply (tap_changes_one_cell morning 3 1 testGame emptyStore 2);
    [reflexivity|compute_done|lia|lia].
Defined.

(** X6. Marks count taps up to 3: after a run of taps on cells of a grid
    that satisfies the invariant, with no winner declared at its end, every
    cell holds its former taps plus the number of taps made on it, capped
    at 3. *)
Theorem taps_are_counted_up_to_three (events : list (Clock * Action))
    (s : Session) (w : World) (n : nat) :
  grid_inv n (grid s) →
  Forall (λ e, is_tap e.2 ∧ in_range n e.2) events →
  ∃ s' w', run events s w = (Ok s', w') ∧
    (isWinnerDeclared s' = false →
     ∀ i j cell, cellAt (grid s) i j = Ok cell →
       cellAt (grid s') i j =
         Ok {| taps := Z.min (taps cell + tapsOn i j events) 3 |}).
Proof.
  intros Hinv Hevents. revert s w Hinv.
  induction Hevents as [|[now a] rest [Htap Hrange] Hrest IH]; intros s w Hinv.
  { exists s, w. split; [done|]. intros _ i j cell Hcell.
    pose proof (grid_inv_cellAt _ _ _ _ _ Hinv Hcell).
    unfold tapsOn. simpl. rewrite Z.add_0_r, Z.min_l by lia.
    by destruct cell. }
  destruct a as [r c| |]; try done. simpl in Hrange. destruct Hrange as [Hr Hc].
  destruct (isWinnerDeclared s) eqn:Hwon.
  - rewrite (run_cons _ _ _ _ _ s w) by by apply handleCellPress_won.
    destruct (run_taps n rest s w Hinv Hrest) as (s' & w' & Hrun & _ & Hlen).
    exists s', w'. split; [done|]. intros [? _]%Hlen. congruence.
  - destruct (handleCellPress_active now r c s w n)
      as (cell0 & row & s1 & w1 & Hcell0 & _ & Hrow & Hlen & Hstep & Hgrid & _
          & _ & _ & Hinv1 & _); [done..|].
    assert (∀ i j, cellAt (grid s1) i j =
              if decide (i = r ∧ j = c)
              then Ok {| taps := Z.min (taps cell0 + 1) 3 |}
              else cellAt (grid s) i j) as Hframe.
    { intros i j. rewrite Hgrid. by apply cellAt_insert. }
    rewrite (run_cons _ _ _ _ _ s1 w1) by done.
    destruct (IH s1 w1 Hinv1) as (s' & w' & Hrun & Hcount).
    exists s', w'. split; [done|]. intros Hactive i j cell Hcell.
    specialize (Hframe i j). unfold tapsOn.
    rewrite filter_cons. simpl.
    destruct (decide (i = r ∧ j = c)) as [[-> ->]|Hne].
    + rewrite decide_True by done.
      rewrite (Hcount Hactive r c _ Hframe). simpl. f_equal. f_equal.
      assert (cell0 = cell) as -> by congruence.
      unfold tapsOn. lia.
    + rewrite decide_False by (intros [= -> ->]; tauto).
      rewrite Hcell in Hframe. by rewrite (Hcount Hactive i j _ Hframe).
Qed.

Lemma taps_are_counted_up_to_three_witness :
  grid_inv 2 (grid testGame) ∧
  Forall (λ e : Clock * Action, is_tap e.2 ∧ in_range 2 e.2) (tapTimes morning 5 0) ∧
  ∃ s' w', run (tapTimes morning 5 0) testGame emptyStore = (Ok s', w') ∧
    (isWinnerDeclared s' = false →
     ∀ i j cell, cellAt (grid testGame) i j = Ok cell →
       cellAt (grid s') i j =
         Ok {| taps := Z.min (taps cell + tapsOn i j (tapTimes morning 5 0)) 3 |}).
Proof.
  split; [compute_done|]. split; [compute_done|].
  apply (taps_are_counted_up_to_three (tapTimes morning 5 0) testGame emptyStore 2);
    compute_done.
Defined.

(** ** Undo *)

(** X7. An undo that takes a move back saves the session: afterwards no
    change is pending exactly when the store was available, and the session
    counts as saved if it was; a rejected save is swallowed, the move is
    still taken back in memory and the change stays pending. *)
Theorem undo_pending_when_store_fails (now : Clock) (s : Session) (w : World)
    (h : list Move) (lastMove : Move) (n : nat) :
  isWinnerDeclared s = false → grid_inv n (grid s) →
  history s = h ++ [lastMove] → move_ok n lastMove →
  ∃ s' w', handleUndo now s w = (Ok s', w') ∧
    history s' = h ∧
    cellAt (grid s') (rowIndex lastMove) (colIndex lastMove)
      = Ok {| taps := previousTaps lastMove |} ∧
    changesMade s' = negb (available w) ∧
    hasSaved s' = (hasSaved s || available w) ∧
    (available w = false → w' = w).
Proof.
  intros Hactive Hinv Hhist (Hr & Hc & Ht).
  destruct (grid_inv_lookup n _ _ _ Hinv Hr Hc) as (row & cell & Hrow & Hlen & _).
  rewrite handleUndo_cases, Hactive, Hhist, last_snoc.
  rewrite (setCell_in_range _ _ _ row) by (done || lia).
  destruct (available w) eqn:Hav.
  - rewrite saveGame_available by done. eexists _, _. split; [done|].
    simpl. rewrite Hhist, removelast_last, orb_true_r.
    split_and!; try done.
    rewrite cellAt_insert by (done || lia). by rewrite decide_True.
  - rewrite saveGame_unavailable by done. eexists _, _. split; [done|].
    simpl. rewrite Hhist, removelast_last, orb_false_r.
    split_and!; try done.
    rewrite cellAt_insert by (done || lia). by rewrite decide_True.
Qed.

Lemma undo_pending_when_store_fails_witness :
  isWinnerDeclared tappedOnce = false ∧ grid_inv 2 (grid tappedOnce) ∧
  history tappedOnce = [] ++ [{| rowIndex := 0; colIndex := 0; previousTaps := 0 |}] ∧
  move_ok 2 {| rowIndex := 0; colIndex := 0; previousTaps := 0 |} ∧
  ∃ s' w', handleUndo evening tappedOnce offline = (Ok s', w') ∧
    history s' = [] ∧
    cellAt (grid s') 0 0 = Ok {| taps := 0 |} ∧
    changesMade s' = negb (available offline) ∧
    hasSaved s' = (hasSaved tappedOnce || available offline) ∧
    (available offline = false → w' = offline).
Proof.
  split; [reflexivity|]. split; [compute_done|]. split; [reflexivity|].
  split; [compute_done|].
  apply (undo_pending_when_store_fails evening tappedOnce offline []
           {| rowIndex := 0; colIndex := 0; previousTaps := 0 |} 2);
    [reflexivity|compute_done|reflexivity|compute_done].
Defined.

(** X8. An undo restores the cell of the last move to the taps the move
    recorded and changes no other cell, whatever later moves say of the same
    cell; the move is taken off the history. *)
Theorem undo_restores_one_cell (now : Clock) (s : Session) (w : World)
    (h : list Move) (lastMove : Move) (n : nat) :
  isWinnerDeclared s = false → grid_inv n (grid s) →
  history s = h ++ [lastMove] → move_ok n lastMove →
  ∃ s' w', handleUndo now s w = (Ok s', w') ∧
    history s' = h ∧ grid_inv n (grid s') ∧
    ∀ i j, cellAt (grid s') i j =
      if decide (i = rowIndex lastMove ∧ j = colIndex lastMove)
      then Ok {| taps := previousTaps lastMove |}
      else cellAt (grid s) i j.
Proof.
  intros Hactive Hinv Hhist (Hr & Hc & Ht).
  destruct (grid_inv_lookup n _ _ _ Hinv Hr Hc) as (row & cell & Hrow & Hlen & _).
  edestruct (handleUndo_active now s w h lastMove) as (s' & w' & Hundo & Hgrid & ? & _);
    [done..| |].
  { apply setCell_in_range; [done|lia]. }
  exists s', w'. split_and!; try done.
  - rewrite Hgrid. by apply grid_inv_insert.
  - intros i j. rewrite Hgrid. apply cellAt_insert; [done|lia].
Qed.

Lemma undo_restores_one_cell_witness :
  isWinnerDeclared tappedOnce = false ∧ grid_inv 2 (grid tappedOnce) ∧
  history tappedOnce = [] ++ [{| rowIndex := 0; colIndex := 0; previousTaps := 0 |}] ∧
  move_ok 2 {| rowIndex := 0; colIndex := 0; previousTaps := 0 |} ∧
  ∃ s' w', handleUndo evening tappedOnce emptyStore = (Ok s', w') ∧
    history s' = [] ∧ grid_inv 2 (grid s') ∧
    ∀ i j, cellAt (grid s') i j =
      if decide (i = 0 ∧ j = 0) then Ok {| taps := 0 |}
      else cellAt (grid tappedOnce) i j.
Proof.
  split; [reflexivity|]. split; [compute_done|]. split; [reflexivity|].
  split; [compute_done|].
  apply (undo_restores_one_cell evening tappedOnce emptyStore []
           {| rowIndex := 0; colIndex := 0; previousTaps := 0 |} 2);
    [reflexivity|compute_done|reflexivity|compute_done].
Defined.

(** X9. Undo is last in, first out: after a run of taps that declares no
    winner, as many undos as there were taps bring back the grid and the
    history the run started from. *)
Theorem undos_take_back_taps (events : list (Clock * Action)) (later : Clock)
    (s : Session) (w : World) (n : nat) :
  grid_inv n (grid s) →
  Forall (λ e, is_tap e.2 ∧ in_range n e.2) events →
  ∃ s1 w1, run events s w = (Ok s1, w1) ∧
    (isWinnerDeclared s1 = false →
     ∃ s2 w2,
       run (replicate (length events) (later, Undo)) s1 w1 = (Ok s2, w2) ∧
       grid s2 = grid s ∧ history s2 = history s ∧ isWinnerDeclared s2 = false).
Proof.
  intros Hinv Hevents.
  enough (∃ s1 w1, run events s w = (Ok s1, w1) ∧
            (isWinnerDeclared s1 = false →
             ∀ u v, grid u = grid s1 → history u = history s1 →
               isWinnerDeclared u = false →
               ∃ s2 w2,
                 run (replicate (length events) (later, Undo)) u v = (Ok s2, w2) ∧
                 grid s2 = grid s ∧ history s2 = history s ∧
                 isWinnerDeclared s2 = false)) as (s1 & w1 & Hrun & Hback).
  { exists s1, w1. split; [done|]. intros Hactive. by apply Hback. }
  revert s w Hinv.
  induction Hevents as [|[now a] rest [Htap Hrange] Hrest IH]; intros s w Hinv.
  { exists s, w. split; [done|]. intros _ u v Hg Hh Hu. by exists u, v. }
  destruct a as [r c| |]; try done. simpl in Hrange. destruct Hrange as [Hr Hc].
  destruct (isWinnerDeclared s) eqn:Hwon.
  - rewrite (run_cons _ _ _ _ _ s w) by by apply handleCellPress_won.
    destruct (run_taps n rest s w Hinv Hrest) as (s1 & w1 & Hrun & _ & Hlen).
    exists s1, w1. split; [done|]. intros [? _]%Hlen. congruence.
  - destruct (handleCellPress_active now r c s w n)
      as (cell & row & sa & wa & Hat & _ & Hrow & Hlen & Hstep & Hgrid & Hhist
          & _ & _ & Hinva & _); [done..|].
    rewrite (run_cons _ _ _ _ _ sa wa) by done.
    destruct (IH sa wa Hinva) as (s1 & w1 & Hrun & Hback).
    exists s1, w1. split; [done|]. intros Hactive u v Hg Hh Hu.
    destruct (Hback Hactive u v Hg Hh Hu) as (u' & v' & Hundos & Hg' & Hh' & Hu').
    simpl length. rewrite replicate_S_end, run_app, Hundos.
    destruct (handleUndo_active later u' v' (history s)
                {| rowIndex := r; colIndex := c; previousTaps := taps cell |}
                (grid s))
      as (s2 & w2 & Hundo & ? & ? & _ & _ & ? & _); [done|congruence| |].
    { simpl. rewrite Hg'. eapply setCell_setCell; [done|].
      rewrite Hgrid. by apply setCell_in_range. }
    exists s2, w2. split; [|done].
    simpl. unfold mbind, Async_bind. by rewrite Hundo.
Qed.

Lemma undos_take_back_taps_witness :
  grid_inv 2 (grid testGame) ∧
  Forall (λ e : Clock * Action, is_tap e.2 ∧ in_range 2 e.2) beforeLastTap ∧
  ∃ s1 w1, run beforeLastTap testGame emptyStore = (Ok s1, w1) ∧
    (isWinnerDeclared s1 = false →
     ∃ s2 w2,
       run (replicate (length beforeLastTap) (evening, Undo)) s1 w1 = (Ok s2, w2) ∧
       grid s2 = grid testGame ∧ history s2 = history testGame ∧
       isWinnerDeclared s2 = false).
Proof.
  split; [compute_done|]. split; [compute_done|].
  apply (undos_take_back_taps beforeLastTap evening testGame emptyStore 2);
    compute_done.
Defined.

(** ** Reset *)

(** X10. A confirmed reset starts the board over whatever the grid and the
    history were, also a grid that breaks the invariant: the grid is the
    all-zero grid of the session's players, the history is empty, the winner
    flag is kept; the change stays pending exactly when the store rejects the
    save.  It never touches the completed collection nor pushes a popup, and
    a cancelled reset changes nothing. *)
Theorem reset_starts_over (now : Clock) (s : Session) (w : World) :
  handleResetBoard now false s w = (Ok s, w) ∧
  ∃ s' w', handleResetBoard now true s w = (Ok s', w') ∧
    grid s' = initialGridState (players s) ∧
    grid_inv (length (players s)) (grid s') ∧
    history s' = [] ∧
    players s' = players s ∧ gameName s' = gameName s ∧
    isWinnerDeclared s' = isWinnerDeclared s ∧
    changesMade s' = negb (available w) ∧
    completedGames w' = completedGames w ∧ pushed w' = pushed w ∧
    (available w = false → w' = w).
Proof.
  split; [done|].
  unfold handleResetBoard, saveResetGame, try_catch, mbind, Async_bind,
    getItem, setItem.
  destruct (available w) eqn:Hav; simpl; rewrite ?Hav; simpl.
  - eexists _, _. split; [done|]. simpl. split_and!; try done.
    + apply initialGridState_inv.
    + by rewrite completedGames_put_inProgress.
  - eexists _, _. split; [done|]. simpl. split_and!; try done.
    apply initialGridState_inv.
Qed.

(** ** The store functions *)

Lemma filter_others_upsert name (games : list GameRecord.t) game :
  GameRecord.gameName game = name →
  filter (λ g, GameRecord.gameName g ≠ name)
    (filter (λ g, GameRecord.gameName g ≠ name) games ++ [game])
  = filter (λ g, GameRecord.gameName g ≠ name) games.
Proof.
  intros Hname. rewrite filter_app, filter_cons, filter_nil.
  rewrite decide_False by (intros Hne; by apply Hne).
  rewrite app_nil_r. by apply list_filter_filter_l.
Qed.

(** X11. Taking a game out of the in-progress collection takes out every
    record of its name and nothing else, keeps the order of the others,
    leaves the completed collection and the popups alone, and done twice
    changes nothing more; if the store rejects the calls nothing is changed
    and nothing is thrown. *)
Theorem removeFromInProgress_only_that_game (s : Session) (w : World) :
  ∃ w', removeFromInProgress s w = (Ok (), w') ∧
    completedGames w' = completedGames w ∧ pushed w' = pushed w ∧
    removeFromInProgress s w' = (Ok (), w') ∧
    if available w
    then inProgressGames w' =
           filter (λ game, GameRecord.gameName game ≠ gameName s) (inProgressGames w)
    else w' = w.
Proof.
  destruct (available w) eqn:Hav.
  - rewrite removeFromInProgress_available by done.
    eexists. split; [done|].
    rewrite completedGames_put_inProgress, inProgressGames_put.
    split_and!; try done.
    rewrite removeFromInProgress_available by done.
    rewrite inProgressGames_put.
    rewrite list_filter_filter_l by done.
    unfold put. simpl. by rewrite insert_insert_eq.
  - assert (removeFromInProgress s w = (Ok (), w)) as Hoff.
    { unfold removeFromInProgress, try_catch, mbind, Async_bind, getItem.
      by rewrite Hav. }
    rewrite Hoff. by exists w.
Qed.

(** X12. No save and no removal touches another game: the in-progress
    records of other names are the same, in the same order, after
    [saveGame], [saveResetGame], [removeFromInProgress] and
    [saveCompletedGame], available store or not; the first three leave the
    completed collection as it is and the last only appends to it. *)
Theorem store_functions_keep_other_games (now : Clock) (s : Session)
    (winnerName : option string) (w : World) :
  let others (w' : World) :=
    filter (λ game, GameRecord.gameName game ≠ gameName s) (inProgressGames w') in
  (others (saveGame now s w).2 = others w ∧
   completedGames (saveGame now s w).2 = completedGames w) ∧
  (others (saveResetGame now s w).2 = others w ∧
   completedGames (saveResetGame now s w).2 = completedGames w) ∧
  (others (removeFromInProgress s w).2 = others w ∧
   completedGames (removeFromInProgress s w).2 = completedGames w) ∧
  (others (saveCompletedGame now s winnerName w).2 = others w ∧
   ∃ added, completedGames (saveCompletedGame now s winnerName w).2
            = completedGames w ++ added).
Proof.
  intros others. destruct (available w) eqn:Hav.
  - rewrite saveGame_available, removeFromInProgress_available,
      saveCompletedGame_available by done.
    destruct (saveResetGame_available now s w Hav) as (s' & -> & _).
    subst others. simpl.
    rewrite !inProgressGames_put, !completedGames_put_inProgress, completedGames_put.
    rewrite !filter_others_upsert by done.
    rewrite list_filter_filter_l by done.
    split_and!; try done. by eexists.
  - rewrite saveGame_unavailable, saveCompletedGame_unavailable by done.
    assert (removeFromInProgress s w = (Ok (), w)) as ->.
    { unfold removeFromInProgress, try_catch, mbind, Async_bind, getItem.
      by rewrite Hav. }
    assert (saveResetGame now s w = (Ok s, w)) as ->.
    { unfold saveResetGame, try_catch, mbind, Async_bind, getItem.
      by rewrite Hav. }
    split_and!; try done. exists []. by rewrite app_nil_r.
Qed.

(** ** Resuming on focus *)

Lemma list_find_named name (games : list GameRecord.t) :
  snd <$> list_find (λ game, GameRecord.gameName game = name) games
  = head (named name games).
Proof.
  unfold named. induction games as [|game games IH]; [done|].
  rewrite filter_cons. simpl. case_decide; [done|].
  rewrite <- IH. by destruct (list_find _ games) as [[i g]|].
Qed.

Lemma fetchGameState_cases s w :
  fetchGameState s w =
    if available w then
      match head (named (gameName s) (inProgressGames w)) with
      | Some currentGame =>
          match GameRecord.history currentGame with
          | Some moves =>
              (Ok {| gameName := gameName s; players := players s;
                     grid := GameRecord.grid currentGame; history := moves;
                     originalGrid := GameRecord.grid currentGame;
                     originalHistory := originalHistory s;
                     changesMade := changesMade s;
                     isWinnerDeclared := isWinnerDeclared s;
                     hasSaved := hasSaved s |}, w)
          | None => (Throw TypeError, w)
          end
      | None => (Ok s, w)
      end
    else (Throw StorageError, w).
Proof.
  unfold fetchGameState, mbind, Async_bind, getItem.
  destruct (available w); [|done].
  rewrite <- list_find_named. unfold inProgressGames, collection.
  destruct (list_find _ _) as [[i currentGame]|]; simpl; [|done].
  by destruct (GameRecord.history currentGame).
Qed.

(** X13. On focus the stored game wins over the one in memory: when the
    in-progress collection holds records of the session's name, the grid and
    the history of the first of them replace those of the session, pending
    changes or not; the players, the winner flag and the store are left as
    they are. *)
Theorem fetchGameState_loads_first_record (s : Session) (w : World)
    (currentGame : GameRecord.t) (more : list GameRecord.t) (moves : list Move) :
  available w = true →
  named (gameName s) (inProgressGames w) = currentGame :: more →
  GameRecord.history currentGame = Some moves →
  ∃ s', fetchGameState s w = (Ok s', w) ∧
    grid s' = GameRecord.grid currentGame ∧ history s' = moves ∧
    originalGrid s' = GameRecord.grid currentGame ∧
    gameName s' = gameName s ∧ players s' = players s ∧
    isWinnerDeclared s' = isWinnerDeclared s ∧ changesMade s' = changesMade s.
Proof.
  intros Hav Hnamed Hmoves.
  rewrite fetchGameState_cases, Hav, Hnamed. simpl. rewrite Hmoves.
  by eexists.
Qed.

Lemma fetchGameState_loads_first_record_witness :
  available rematchStore = true ∧
  named (gameName tappedOnce) (inProgressGames rematchStore)
    = gameData morning testGame :: [] ∧
  GameRecord.history (gameData morning testGame) = Some [] ∧
  ∃ s', fetchGameState tappedOnce rematchStore = (Ok s', rematchStore) ∧
    grid s' = GameRecord.grid (gameData morning testGame) ∧ history s' = [] ∧
    originalGrid s' = GameRecord.grid (gameData morning testGame) ∧
    gameName s' = gameName tappedOnce ∧ players s' = players tappedOnce ∧
    isWinnerDeclared s' = isWinnerDeclared tappedOnce ∧
    changesMade s' = changesMade tappedOnce.
Proof.
  split; [reflexivity|]. split; [reflexivity|]. split; [reflexivity|].
  apply (fetchGameState_loads_first_record tappedOnce rematchStore
           (gameData morning testGame) [] []); reflexivity.
Defined.

(** X14. With no record of the session's name in the in-progress
    collection, the key missing included, the focus effect leaves the session
    as it is; when the store rejects the read the effect is rejected in turn
    and nothing is set.  It never writes to the store. *)
Theorem fetchGameState_without_record (s : Session) (w : World) :
  (fetchGameState s w).2 = w ∧
  (available w = false → fetchGameState s w = (Throw StorageError, w)) ∧
  (available w = true → named (gameName s) (inProgressGames w) = [] →
   fetchGameState s w = (Ok s, w)).
Proof.
  rewrite fetchGameState_cases. split_and!.
  - destruct (available w); [|done].
    destruct (head _) as [currentGame|]; [|done].
    by destruct (GameRecord.history currentGame).
  - by intros ->.
  - by intros -> ->.
Qed.

(** X15. A saved game is resumed as it was saved: after [saveGame], and
    after the save of a reset, the focus effect of any session of the same
    name, whatever board it holds, loads the grid and the history that were
    saved, the all-zero grid and the empty history for a reset. *)
Theorem save_then_focus_round_trip (now : Clock) (s u : Session) (w : World) :
  available w = true → gameName u = gameName s →
  (∃ u', fetchGameState u (saveGame now s w).2 = (Ok u', (saveGame now s w).2) ∧
     grid u' = grid s ∧ history u' = history s) ∧
  (∃ u', fetchGameState u (saveResetGame now s w).2
         = (Ok u', (saveResetGame now s w).2) ∧
     grid u' = initialGridState (players s) ∧ history u' = []).
Proof.
  intros Hav Hname. split.
  - rewrite saveGame_available by done. simpl.
    rewrite fetchGameState_cases. simpl. rewrite Hav, inProgressGames_put, Hname.
    rewrite named_app, named_others. rewrite named_singleton by done.
    simpl. by eexists.
  - destruct (saveResetGame_available now s w Hav) as (s' & -> & _). simpl.
    rewrite fetchGameState_cases. simpl. rewrite Hav, inProgressGames_put, Hname.
    rewrite named_app, named_others. rewrite named_singleton by done.
    simpl. by eexists.
Qed.

Lemma save_then_focus_round_trip_witness :
  available rematchStore = true ∧ gameName testGame = gameName tappedOnce ∧
  (∃ u', fetchGameState testGame (saveGame evening tappedOnce rematchStore).2
         = (Ok u', (saveGame evening tappedOnce rematchStore).2) ∧
     grid u' = grid tappedOnce ∧ history u' = history tappedOnce) ∧
  (∃ u', fetchGameState testGame (saveResetGame evening tappedOnce rematchStore).2
         = (Ok u', (saveResetGame evening tappedOnce rematchStore).2) ∧
     grid u' = initialGridState (players tappedOnce) ∧ history u' = []).
Proof.
  split; [reflexivity|]. split; [reflexivity|].
  apply (save_then_focus_round_trip evening tappedOnce testGame rematchStore);
    reflexivity.
Defined.

(** ** The tap that wins *)




(** ** What the screen shows *)

(** X17. The four mark counts of the invariant are shown by four different
    symbols, nothing for 0; a count outside 1..3 is shown as nothing; and the
    large font is used exactly for the symbol of 3 taps. *)
Theorem renderCellContent_tells_marks_apart :
  (∀ t1 t2 : Z, (0 ≤ t1 ≤ 3)%Z → (0 ≤ t2 ≤ 3)%Z →
     renderCellContent t1 = renderCellContent t2 → t1 = t2) ∧
  (∀ t : Z, renderCellContent t = EmptyString ↔ (t < 1 ∨ 3 < t)%Z) ∧
  (∀ t : Z, getCellFontSize t = largeText ↔ renderCellContent t = "Ⓧ"%string).
Proof.
  split_and!.
  - intros t1 t2 H1 H2.
    assert (t1 = 0 ∨ t1 = 1 ∨ t1 = 2 ∨ t1 = 3)%Z as Ht1 by lia.
    assert (t2 = 0 ∨ t2 = 1 ∨ t2 = 2 ∨ t2 = 3)%Z as Ht2 by lia.
    destruct Ht1 as [-> | [-> | [-> | ->]]], Ht2 as [-> | [-> | [-> | ->]]];
      vm_compute; congruence.
  - intros t. unfold renderCellContent.
    repeat case_decide; split; try done; lia.
  - intros t. unfold getCellFontSize, renderCellContent.
    repeat case_decide; split; try done; lia.
Qed.

Lemma getNumberColumnPosition_inside players :
  getNumberColumnPosition players < length players ↔ 2 ≤ length players ≤ 4.
Proof. unfold getNumberColumnPosition. repeat case_decide; lia. Qed.

Lemma renderHeaderFrom_spec position index players :
  filter is_blank (renderHeaderFrom position index players) =
    (if decide (index ≤ position < index + length players) then [BlankCell] else []) ∧
  filter (λ v, ¬ is_blank v) (renderHeaderFrom position index players) =
    PlayerName <$> players ∧
  (index ≤ position < index + length players →
   renderHeaderFrom position index players !! (position - index) = Some BlankCell).
Proof.
  revert index. induction players as [|player rest IH]; intros index; simpl.
  { split_and!; [by case_decide; [lia|]|done|lia]. }
  destruct (IH (S index)) as (Hblank & Hnames & Hposition).
  destruct (decide (index = position)) as [->|Hne]; simpl.
  - rewrite (filter_cons_True is_blank BlankCell) by done.
    rewrite (filter_cons_False is_blank (PlayerName player)) by (simpl; tauto).
    rewrite (filter_cons_False (λ v, ¬ is_blank v) BlankCell) by (simpl; tauto).
    rewrite (filter_cons_True (λ v, ¬ is_blank v) (PlayerName player))
      by (simpl; tauto).
    rewrite Hblank, Hnames.
    rewrite decide_False by lia. rewrite decide_True by lia.
    split_and!; [done..|]. intros _. by rewrite Nat.sub_diag.
  - rewrite (filter_cons_False is_blank (PlayerName player)) by (simpl; tauto).
    rewrite (filter_cons_True (λ v, ¬ is_blank v) (PlayerName player))
      by (simpl; tauto).
    rewrite Hblank, Hnames. split_and!; [|done|].
    + repeat case_decide; (done || lia).
    + intros Hin. replace (position - index) with (S (position - S index)) by lia.
      simpl. apply Hposition. lia.
Qed.

Lemma renderRowFrom_spec g position rowIndex row colIndex players :
  (∀ j, colIndex ≤ j < colIndex + length players → is_Some (scoreCell g rowIndex j)) →
  ∃ views, renderRowFrom g position rowIndex row colIndex players = Ok views ∧
    filter is_number views =
      (if decide (colIndex ≤ position < colIndex + length players)
       then [NumberCell row] else []) ∧
    Some <$> filter (λ v, ¬ is_number v) views =
      scoreCell g rowIndex <$> seq colIndex (length players) ∧
    (colIndex ≤ position < colIndex + length players →
     views !! (position - colIndex) = Some (NumberCell row)).
Proof.
  revert colIndex. induction players as [|player rest IH]; intros colIndex Hcells.
  { exists []. simpl. split_and!; [done|by case_decide; [lia|]|done|lia]. }
  simpl in *.
  destruct (Hcells colIndex) as [view Hview]; [lia|].
  unfold scoreCell in Hview.
  destruct (cellAt g rowIndex colIndex) as [cell|e] eqn:Hcell; [|done].
  injection Hview as <-.
  destruct (IH (S colIndex)) as (views & -> & Hnumber & Hscore & Hposition).
  { intros j Hj. apply Hcells. lia. }
  eexists. split; [done|].
  assert (scoreCell g rowIndex colIndex
          = Some (ScoreCell rowIndex colIndex (renderCellContent (taps cell))
                    (getCellFontSize (taps cell)))) as Hshown.
  { unfold scoreCell. by rewrite Hcell. }
  set (view := ScoreCell rowIndex colIndex (renderCellContent (taps cell))
                 (getCellFontSize (taps cell))) in *.
  destruct (decide (colIndex = position)) as [->|Hne]; simpl.
  - split_and!.
    + rewrite (filter_cons_True is_number (NumberCell row)) by done.
      rewrite (filter_cons_False is_number view) by (simpl; tauto).
      rewrite Hnumber. rewrite decide_False by lia. by rewrite decide_True by lia.
    + rewrite Hshown. f_equal. exact Hscore.
    + intros _. by rewrite Nat.sub_diag.
  - split_and!.
    + rewrite (filter_cons_False is_number view) by (simpl; tauto).
      rewrite Hnumber. repeat case_decide; (done || lia).
    + rewrite Hshown. f_equal. exact Hscore.
    + intros Hin. replace (position - colIndex) with (S (position - S colIndex)) by lia.
      simpl. apply Hposition. lia.
Qed.

Lemma renderRowFrom_Throw g position rowIndex row colIndex players j :
  colIndex ≤ j < colIndex + length players →
  scoreCell g rowIndex j = None →
  renderRowFrom g position rowIndex row colIndex players = Throw TypeError.
Proof.
  revert colIndex. induction players as [|player rest IH]; intros colIndex Hj Hnone.
  { simpl in Hj. lia. }
  simpl in *. unfold scoreCell in Hnone.
  destruct (cellAt g rowIndex colIndex) as [cell|e] eqn:Hcell.
  - simpl. rewrite IH; [done| |done].
    destruct (decide (j = colIndex)) as [->|?]; [by rewrite Hcell in Hnone|lia].
  - simpl. f_equal. by eapply cellAt_Throw.
Qed.

(** X18. A row of the board is drawn when the grid has a cell for each
    player in that row, and drawing it throws a [TypeError] when one is
    missing.  When drawn, it shows the cells of columns 0, 1, ... in order,
    each once, with the symbol and the font of its taps, and the number of
    the row exactly once, at the position [getNumberColumnPosition] gives,
    when there are 2 to 4 players; with any other number of players the row
    shows no number at all. *)
Theorem renderRow_shows_cells_and_number (s : Session) (rowIndex : nat)
    (row : string) :
  (∀ j, j < length (players s) → is_Some (scoreCell (grid s) rowIndex j)) →
  ∃ views, renderRow s rowIndex row = Ok views ∧
    Some <$> filter (λ v, ¬ is_number v) views =
      scoreCell (grid s) rowIndex <$> seq 0 (length (players s)) ∧
    if decide (2 ≤ length (players s) ≤ 4)
    then filter is_number views = [NumberCell row] ∧
         views !! getNumberColumnPosition (players s) = Some (NumberCell row)
    else filter is_number views = [].
Proof.
  intros Hcells. unfold renderRow.
  destruct (renderRowFrom_spec (grid s) (getNumberColumnPosition (players s))
              rowIndex row 0 (players s))
    as (views & Hviews & Hnumber & Hscore & Hposition).
  { intros j Hj. apply Hcells. lia. }
  exists views. split_and!; [done..|].
  pose proof (getNumberColumnPosition_inside (players s)) as Hinside.
  rewrite Nat.sub_0_r in Hposition.
  case_decide as Hcount.
  - rewrite Hnumber, decide_True by lia. split; [done|]. apply Hposition. lia.
  - rewrite Hnumber, decide_False; [done|]. lia.
Qed.

Lemma renderRow_shows_cells_and_number_witness :
  (∀ j, j < length (players tappedOnce) → is_Some (scoreCell (grid tappedOnce) 0 j)) ∧
  renderRow tappedOnce 0 "20" =
    Ok [ScoreCell 0 0 "/" normalText; NumberCell "20";
        ScoreCell 0 1 EmptyString normalText].
Proof.
  assert (∀ j, j < length (players tappedOnce) →
               is_Some (scoreCell (grid tappedOnce) 0 j)) as Hcells.
  { intros j Hj. simpl in Hj. do 2 (destruct j as [|j]; [by eexists|]). lia. }
  split; [exact Hcells|].
  destruct (renderRow_shows_cells_and_number tappedOnce 0 "20" Hcells)
    as (views & Hviews & _).
  reflexivity.
Defined.

(** X19. Drawing a row throws a [TypeError] as soon as the grid lacks the
    cell of one of the players in that row, as for a grid narrower than the
    list of players. *)
Theorem renderRow_throws_on_missing_cell (s : Session) (rowIndex : nat)
    (row : string) (j : nat) :
  j < length (players s) → scoreCell (grid s) rowIndex j = None →
  renderRow s rowIndex row = Throw TypeError.
Proof.
  intros Hj Hnone. unfold renderRow.
  apply (renderRowFrom_Throw _ _ _ _ _ _ j); [lia|done].
Qed.

Lemma renderRow_throws_on_missing_cell_witness :
  2 < length (players narrowGrid) ∧ scoreCell (grid narrowGrid) 0 2 = None ∧
  renderRow narrowGrid 0 "20" = Throw TypeError.
Proof.
  split; [simpl; lia|]. split; [reflexivity|].
  apply (renderRow_throws_on_missing_cell narrowGrid 0 "20" 2);
    [simpl; lia|reflexivity].
Defined.

(** X20. The top row lists the players in order and, when there are 2 to
    4 of them, has one blank cell, at the position of the number column of
    the rows below, so that names stand above their columns; with any other
    number of players it has no blank cell. *)
Theorem renderHeader_lines_up_with_rows (s : Session) :
  filter (λ v, ¬ is_blank v) (renderHeader s) = PlayerName <$> players s ∧
  if decide (2 ≤ length (players s) ≤ 4)
  then filter is_blank (renderHeader s) = [BlankCell] ∧
       renderHeader s !! getNumberColumnPosition (players s) = Some BlankCell
  else filter is_blank (renderHeader s) = [].
Proof.
  unfold renderHeader.
  destruct (renderHeaderFrom_spec (getNumberColumnPosition (players s)) 0 (players s))
    as (Hblank & Hnames & Hposition).
  split; [done|].
  pose proof (getNumberColumnPosition_inside (players s)) as Hinside.
  rewrite Nat.sub_0_r in Hposition.
  case_decide as Hcount.
  - rewrite Hblank, decide_True by lia. split; [done|]. apply Hposition. lia.
  - rewrite Hblank, decide_False; [done|]. lia.
Qed.

(** ** The earlier copy of the screen, further *)


(** X22. The earlier [saveGame] tells games apart by their grid, not by
    their name: with the store available it drops every record, of any game,
    whose grid equals the grid the session started on, keeps every other
    record, those of the session's own name included, and appends the
    record of the session. *)
Theorem Legacy_saveGame_drops_by_grid (now : Clock) (s : Legacy.Session)
    (w : World) :
  available w = true →
  ∃ w', Legacy.saveGame now s w = (Ok (), w') ∧
    inProgressGames w' =
      filter (λ game, GameRecord.grid game ≠ Legacy.originalGrid s)
        (inProgressGames w)
      ++ [Legacy.gameData now s] ∧
    (∀ game, game ∈ inProgressGames w →
       GameRecord.grid game ≠ Legacy.originalGrid s → game ∈ inProgressGames w') ∧
    (∀ game, game ∈ inProgressGames w' →
       GameRecord.grid game = Legacy.originalGrid s →
       game = Legacy.gameData now s) ∧
    completedGames w' = completedGames w.
Proof.
  intros Hav. unfold Legacy.saveGame, try_catch, mbind, Async_bind.
  rewrite getItem_available by done. rewrite setItem_available by done.
  eexists. split; [done|].
  rewrite inProgressGames_put, completedGames_put_inProgress.
  split_and!; try done.
  - intros game Hin Hne. apply elem_of_app. left. by apply list_elem_of_filter.
  - intros game [Hin|Hin]%elem_of_app Hgrid.
    + apply list_elem_of_filter in Hin as [Hne _]. done.
    + by apply list_elem_of_singleton in Hin.
Qed.

Lemma Legacy_saveGame_drops_by_grid_witness :
  available rematchStore = true ∧
  inProgressGames (Legacy.saveGame evening Legacy.afterOneTap rematchStore).2
  = [Legacy.gameData evening Legacy.afterOneTap].
Proof.
  split; [reflexivity|].
  destruct (Legacy_saveGame_drops_by_grid evening Legacy.afterOneTap rematchStore
              eq_refl) as (w' & Hsave & Hgames & _).
  rewrite Hsave. simpl. rewrite Hgames. reflexivity.
Defined.
